(** * bioproject_search: keyword search and accession resolution

    A shallow embedding of [bioproject_keyword_search.py] and the
    properties its specification states about it.

    Python strings are modelled by [string]; a character is a code point
    below 256.  Dictionaries are finite maps ([gmap string string]), the
    [set] built by [search_in_bioproject] is a [gset string].  The two
    remote services (the HTTP search endpoint and [Entrez.efetch]) are
    oracles over an abstract world; every call is recorded in a trace.
    Console output ([print], [tqdm.write]) is not modelled. *)

From Stdlib Require Import String Ascii List ZArith NArith Bool Lia.
From stdpp Require Import gmap strings list fin_maps.

#[local] Set Warnings "-clear-no-such-hyp".

(** ** Python string primitives *)

Module PyStr.

(** The line feed, written ["\n"] in the source. *)
Definition newline : string := String "010"%char EmptyString.

(** The double quote character, as a one-character string. *)
Definition dquote : string := String "034"%char EmptyString.

(** [c.isspace()] on code points below 256: TAB..CR, FS..US, space,
    NEL and the no-break space. *)
Definition is_space (c : ascii) : bool :=
  let n := N_of_ascii c in
  ((9 <=? n) && (n <=? 13) || (28 <=? n) && (n <=? 32)
   || (n =? 133) || (n =? 160))%N.

(** [s.startswith(p)] *)
Definition startswith (s p : string) : bool := String.prefix p s.

(** [s.find(sub)]: index of the first occurrence, [None] for -1. *)
Definition find (sub s : string) : option nat := String.index 0 sub s.

(** [s[:i]] and [s[i:]] *)
Definition slice_to (i : nat) (s : string) : string := String.substring 0 i s.
Definition slice_from (i : nat) (s : string) : string :=
  String.substring i (String.length s - i) s.

(** [s.lstrip()], [s.rstrip()], [s.strip()] *)
Fixpoint lstrip (s : string) : string :=
  match s with
  | EmptyString => EmptyString
  | String c s' => if is_space c then lstrip s' else s
  end.

Fixpoint rstrip (s : string) : string :=
  match s with
  | EmptyString => EmptyString
  | String c s' =>
      match rstrip s' with
      | EmptyString => if is_space c then EmptyString else String c EmptyString
      | r => String c r
      end
  end.

Definition strip (s : string) : string := rstrip (lstrip s).

(** [s.split(sep)]: cut at every occurrence of [sep], scanning from the
    left.  Each cut consumes at least one character, so [length s] rounds
    are enough (see [split_loop_fuel]). *)
Fixpoint split_loop (fuel : nat) (sep s : string) : list string :=
  match find sep s with
  | None => [s]
  | Some i =>
      match fuel with
      | O => [s]
      | S fuel' =>
          slice_to i s :: split_loop fuel' sep (slice_from (i + String.length sep) s)
      end
  end.

(** Python raises [ValueError] on an empty separator. *)
Definition split (sep s : string) : option (list string) :=
  if String.eqb sep "" then None
  else Some (split_loop (String.length s) sep s).

(** [sep.join(parts)] *)
Definition join (sep : string) (parts : list string) : string :=
  String.concat sep parts.

End PyStr.

Import PyStr.

(** ** Response validation, cleaning and field extraction *)

(** [check_proper_entrez_response] *)
Definition check_proper_entrez_response (cleaned_result : list string) : bool :=
  if negb (existsb (fun result => startswith result "1. ") cleaned_result)
  then false
  else if negb (existsb (fun result => startswith result "BioProject Accession: ")
                        cleaned_result)
  then false
  else true.

(** [[result.strip() for result in entrez_result if result != "\n"]] *)
Definition clean_result (entrez_result : list string) : list string :=
  map strip (List.filter (fun result => negb (String.eqb result newline)) entrez_result).

(** The two list comprehensions of the valid branch of
    [convert_ids_to_accessions]. *)
Definition abstract_lines (cleaned_result : list string) : list string :=
  List.filter (fun result => startswith result "1. ") cleaned_result.

Definition accession_lines (cleaned_result : list string) : list string :=
  List.filter (fun result => startswith result "BioProject Accession: ") cleaned_result.

(** [bioproject_accession.split(": ")[1]] *)
Definition accession_field (bioproject_accession : string) : option string :=
  parts ← split ": " bioproject_accession;
  parts !! 1%nat.

(** The valid branch up to the dictionary update: the [[0]] indexings and
    the accession field.  [None] stands for the [IndexError] that an
    out-of-range index raises. *)
Definition parse_entry (cleaned_result : list string) : option (string * string) :=
  abstract ← abstract_lines cleaned_result !! 0%nat;
  bioproject_accession ← accession_lines cleaned_result !! 0%nat;
  bioproject_accession ← accession_field bioproject_accession;
  Some (bioproject_accession, abstract).

(** ** Effects: remote calls, exceptions and process exit *)

(** What a statement can do besides changing the state: return a value,
    leave the process through [exit(code)], or raise an exception that
    nothing in the program catches. *)
Inductive outcome (A : Type) : Type :=
| Returned (a : A)
| Exited (code : Z)
| Raised.
Arguments Returned {A} a.
Arguments Exited {A} code.
Arguments Raised {A}.

(** The answer of [requests.get]: the status code and what
    [response.json()["esearchresult"]["idlist"]] evaluates to ([None] when
    that expression raises). *)
Record response : Type := {
  status_code : Z;
  json_idlist : option (list string)
}.

(** The answer of one [Entrez.efetch] attempt (with [readlines] and
    [close]): the lines read, or an exception. *)
Inductive fetch_result : Type :=
| Lines (entrez_result : list string)
| FetchError.

(** Calls to the outside world, in the order they are made. *)
Inductive event : Type :=
| HttpGet (url : string)
| Efetch (bioproject_id : string).

(** Control flow of a loop body: go on with the next element or [break]. *)
Inductive flow : Type := Next | Break.

Section Program.

(** The outside world and the two services living in it. *)
Variable W : Type.
Variable requests_get : string -> W -> response * W.
Variable entrez_efetch : string -> W -> fetch_result * W.
(** [str] applied to a list of strings (the built-in [repr] of a list). *)
Variable py_str : list string -> string.

Record sys : Type := { env : W; trace : list event }.

Definition M (A : Type) : Type := sys -> outcome A * sys.

Definition ret {A} (a : A) : M A := fun s => (Returned a, s).

Definition bind {A B} (m : M A) (k : A -> M B) : M B :=
  fun s =>
    match m s with
    | (Returned a, s') => k a s'
    | (Exited code, s') => (Exited code, s')
    | (Raised, s') => (Raised, s')
    end.

Notation "x <- m ;; k" := (bind m (fun x => k))
  (at level 100, m at next level, right associativity).

Definition exit {A} (code : Z) : M A := fun s => (Exited code, s).

(** A partial pure computation; [None] is an uncaught exception. *)
Definition lift {A} (o : option A) : M A :=
  fun s => match o with Some a => (Returned a, s) | None => (Raised, s) end.

Definition call_get (url : string) : M response :=
  fun s =>
    let (r, w) := requests_get url (env s) in
    (Returned r, {| env := w; trace := trace s ++ [HttpGet url] |}).

Definition call_efetch (bioproject_id : string) : M fetch_result :=
  fun s =>
    let (r, w) := entrez_efetch bioproject_id (env s) in
    (Returned r, {| env := w; trace := trace s ++ [Efetch bioproject_id] |}).

(** *** search_in_bioproject *)

Definition keyword_url (keyword from_date to_date : string) : option string :=
  words ← split " " keyword;
  let keyword_phrase := join "+" words in
  Some (("https://eutils.ncbi.nlm.nih.gov/entrez/eutils/esearch.fcgi?db=BioProject&term=("
           +:+ keyword_phrase +:+ ")")
        +:+ ("+AND+(" +:+ dquote +:+ from_date +:+ dquote
               +:+ "[Registration%20Date]%20:%20%22" +:+ to_date
               +:+ "%22[Registration%20Date])")
        +:+ "&RetMax=999999&retmode=json").

(** The [for keyword in keywords] loop, with [results_list] as the
    loop-carried variable. *)
Fixpoint search_loop (keywords : list string) (from_date to_date : string)
         (results_list : list string) : M (list string) :=
  match keywords with
  | [] => ret results_list
  | keyword :: keywords' =>
      url <- lift (keyword_url keyword from_date to_date) ;;
      response <- call_get url ;;
      if (status_code response =? 200)%Z then
        idlist <- lift (json_idlist response) ;;
        search_loop keywords' from_date to_date (results_list ++ idlist)
      else
        exit 1%Z
  end.

Definition search_in_bioproject (keywords : list string) (from_date to_date : string)
  : M (list string) :=
  results_list <- search_loop keywords from_date to_date [] ;;
  ret (elements (list_to_set results_list : gset string)).

(** *** convert_ids_to_accessions *)

(** [for i in range(attempts)] with its [else] clause: [Some] when an
    attempt succeeded and the loop was left by [break], [None] when the
    range was exhausted and the [else] clause runs. *)
Fixpoint fetch_attempts (attempts : nat) (bioproject_id : string)
  : M (option (list string)) :=
  match attempts with
  | O => ret None
  | S attempts' =>
      r <- call_efetch bioproject_id ;;
      match r with
      | Lines entrez_result => ret (Some entrez_result)
      | FetchError => fetch_attempts attempts' bioproject_id
      end
  end.

(** One round of the outer loop over both dictionaries. *)
Definition convert_body (bioproject_id : string)
           (dicts : gmap string string * gmap string string)
  : M (flow * (gmap string string * gmap string string)) :=
  let '(bioproject_accessions, failed_bioprojects) := dicts in
  fetched <- fetch_attempts 3 bioproject_id ;;
  match fetched with
  | None =>
      ret (Break, (bioproject_accessions,
                   <[bioproject_id := "Failed to fetch"]> failed_bioprojects))
  | Some entrez_result =>
      let cleaned_result := clean_result entrez_result in
      if check_proper_entrez_response cleaned_result then
        entry <- lift (parse_entry cleaned_result) ;;
        let '(bioproject_accession, abstract) := entry in
        ret (Next, (<[bioproject_accession := abstract]> bioproject_accessions,
                    failed_bioprojects))
      else
        ret (Next, (bioproject_accessions,
                    <[bioproject_id := py_str cleaned_result]> failed_bioprojects))
  end.

Fixpoint convert_loop (bioproject_ids : list string)
         (dicts : gmap string string * gmap string string)
  : M (gmap string string * gmap string string) :=
  match bioproject_ids with
  | [] => ret dicts
  | bioproject_id :: bioproject_ids' =>
      step <- convert_body bioproject_id dicts ;;
      match step with
      | (Next, dicts') => convert_loop bioproject_ids' dicts'
      | (Break, dicts') => ret dicts'
      end
  end.

Definition convert_ids_to_accessions (bioproject_ids : list string) (email : string)
  : M (gmap string string * gmap string string) :=
  convert_loop bioproject_ids (∅, ∅).

End Program.

Arguments env {W} _.
Arguments trace {W} _.
Arguments Build_sys {W} _ _.

(** ** Vocabulary of the specification *)

(** [s] starts with [p]. *)
Definition starts_with (p s : string) : Prop := exists rest, s = p +:+ rest.

(** [x] is the first element of [l] that starts with [p]. *)
Definition first_with_prefix (p : string) (l : list string) (x : string) : Prop :=
  exists before after,
    l = before ++ x :: after /\ starts_with p x /\
    forall y, y ∈ before -> ~ starts_with p y.

(** Every character of [s] is whitespace. *)
Fixpoint all_space (s : string) : bool :=
  match s with
  | EmptyString => true
  | String c s' => is_space c && all_space s'
  end.

Definition first_char (s : string) : option ascii :=
  match s with
  | EmptyString => None
  | String c _ => Some c
  end.

Fixpoint last_char (s : string) : option ascii :=
  match s with
  | EmptyString => None
  | String c EmptyString => Some c
  | String _ s' => last_char s'
  end.

(** [s] has neither leading nor trailing whitespace. *)
Definition trimmed (s : string) : Prop :=
  (forall c, first_char s = Some c -> is_space c = false) /\
  (forall c, last_char s = Some c -> is_space c = false).

(** The substring of [line] strictly after the first occurrence of [sep]. *)
Definition after_first (sep line : string) : option string :=
  i ← find sep line; Some (slice_from (i + String.length sep) line).

(** [s] up to, and without, its first occurrence of [sep]; all of [s]
    when [sep] does not occur. *)
Definition before_first (sep s : string) : string :=
  match find sep s with
  | Some j => slice_to j s
  | None => s
  end.

(** The request URLs of a vocabulary, in order. *)
Definition urls_of (keywords : list string) (from_date to_date : string) : list string :=
  omap (fun keyword => keyword_url keyword from_date to_date) keywords.

(** A search request that succeeded: status 200 and a body holding an
    identifier list. *)
Definition succeeded (r : response) : Prop :=
  status_code r = 200%Z /\ is_Some (json_idlist r).

(** The answers the search endpoint gives to the successive requests
    [urls] from world [w] on, and the world after them. *)
Fixpoint answers {W} (requests_get : string -> W -> response * W)
         (urls : list string) (w : W) : list response * W :=
  match urls with
  | [] => ([], w)
  | url :: urls' =>
      let (r, w') := requests_get url w in
      let (rs, w'') := answers requests_get urls' w' in
      (r :: rs, w'')
  end.

(** The identifiers those answers carry, in order. *)
Definition returned_ids (rs : list response) : list string :=
  mjoin (omap json_idlist rs).

(** The world after [n] fetch attempts for [bioproject_id]. *)
Fixpoint after_fetches {W} (entrez_efetch : string -> W -> fetch_result * W)
         (n : nat) (bioproject_id : string) (w : W) : W :=
  match n with
  | O => w
  | S n' => after_fetches entrez_efetch n' bioproject_id (entrez_efetch bioproject_id w).2
  end.

(** ** Scripted worlds

    A world that only counts the calls made so far; the services answer
    from a script indexed by that count. *)
Module Scripted.

Definition get (script : nat -> response) (url : string) (n : nat) : response * nat :=
  (script n, S n).

Definition efetch (script : string -> nat -> fetch_result)
           (bioproject_id : string) (n : nat) : fetch_result * nat :=
  (script bioproject_id n, S n).

Definition start : sys nat := {| env := 0; trace := [] |}.

(** The [repr] of a list is not needed to run the scripts below. *)
Definition show (cleaned_result : list string) : string := "[...]".

Definition record (title accession : string) : list string :=
  [newline; ("1. " +:+ title) +:+ newline;
   ("BioProject Accession: " +:+ accession) +:+ newline;
   "ID: 1" +:+ newline; newline].

(** The endpoint is down for identifier 1 and healthy for the others. *)
Definition down_for_1 (bioproject_id : string) (n : nat) : fetch_result :=
  if String.eqb bioproject_id "1" then FetchError
  else Lines (record "Gut study" "PRJNA2").

Definition always_down (bioproject_id : string) (n : nat) : fetch_result := FetchError.

(** Two identifiers of the same project, described differently. *)
Definition same_project (bioproject_id : string) (n : nat) : fetch_result :=
  if String.eqb bioproject_id "7" then Lines (record "first title" "PRJNA9")
  else Lines (record "second title" "PRJNA9").

(** The first attempt raises, the later ones succeed. *)
Definition flaky (bioproject_id : string) (n : nat) : fetch_result :=
  match n with
  | O => FetchError
  | _ => Lines (record "Gut study" "PRJNA2")
  end.

(** Overlapping identifier lists for the successive keywords. *)
Definition overlapping (n : nat) : response :=
  match n with
  | O => {| status_code := 200; json_idlist := Some ["801993"; "801992"] |}
  | _ => {| status_code := 200; json_idlist := Some ["801992"; "839171"] |}
  end.

(** The second request is answered with a server error. *)
Definition second_fails (n : nat) : response :=
  match n with
  | 1 => {| status_code := 500; json_idlist := None |}
  | _ => {| status_code := 200; json_idlist := Some ["801993"] |}
  end.

End Scripted.

(** ** The file names chosen by [main] *)

(** [s.replace(old, new)].  For a non-empty [old] this is
    [new.join(s.split(old))]; for an empty [old] Python puts [new] before
    every character and at the end. *)
Definition replace (old new s : string) : string :=
  match split old s with
  | Some parts => join new parts
  | None =>
      join new (EmptyString
                  :: map (fun c => String c EmptyString) (list_ascii_of_string s)
                  ++ [EmptyString])
  end.

(** [main], lines 148-150: the path of the result file, from
    [args.output] and the two dates. *)
Definition output_file_name (output from_date to_date : string) : string :=
  if String.eqb output "output-from_date-to_date.csv"
  then "output-" +:+ replace "/" "-" from_date +:+ "-"
         +:+ replace "/" "-" to_date +:+ ".csv"
  else output.

(** [main], lines 159-161: the path of the file of failed identifiers. *)
Definition failed_file_name (failed from_date to_date : string) : string :=
  if String.eqb failed "failed-from_date-to_date.csv"
  then "failed-" +:+ replace "/" "-" from_date +:+ "-"
         +:+ replace "/" "-" to_date +:+ ".csv"
  else failed.

(** ** Further vocabulary *)

(** [s] with every character [a] changed into [b]. *)
Fixpoint subst_char (a b : ascii) (s : string) : string :=
  match s with
  | EmptyString => EmptyString
  | String c s' => String (if Ascii.eqb c a then b else c) (subst_char a b s')
  end.

(** The character [a] occurs in [s]. *)
Fixpoint has_char (a : ascii) (s : string) : bool :=
  match s with
  | EmptyString => false
  | String c s' => Ascii.eqb c a || has_char a s'
  end.

(** The fetch calls of a run that handles the identifiers [ids] in turn,
    with [counts] attempts each. *)
Definition fetches_of (counts : list nat) (ids : list string) : list event :=
  mjoin (zip_with (fun n bioproject_id => replicate n (Efetch bioproject_id)) counts ids).

(** ** More scripted services *)
Module Scenario.

(** The second answer has status 200 and a body without identifier list. *)
Definition malformed_second (n : nat) : response :=
  match n with
  | 1 => {| status_code := 200; json_idlist := None |}
  | _ => {| status_code := 200; json_idlist := Some ["801993"] |}
  end.

(** An endpoint without memory: the answer depends on the URL only. *)
Definition by_length (url : string) : response :=
  {| status_code := 200;
     json_idlist := Some (if Nat.even (String.length url) then ["801993"; "801992"]
                          else ["801992"; "839171"]) |}.

Definition stateless (url : string) (w : unit) : response * unit := (by_length url, w).

Definition quiet : sys unit := {| env := tt; trace := [] |}.

(** The endpoint answers, but not with a record. *)
Definition no_record (bioproject_id : string) (n : nat) : fetch_result :=
  if String.eqb bioproject_id "1"
  then Lines ["Error: no such record" +:+ newline]
  else Lines (Scripted.record "Gut study" "PRJNA2").

End Scenario.

(** ** Facts about the string primitives *)

Section StringFacts.

Lemma length_append (s t : string) :
  String.length (s +:+ t) = String.length s + String.length t.
Proof. induction s as [|c s IH]; simpl; [reflexivity | now rewrite IH]. Qed.

Lemma startswith_spec (s p : string) :
  startswith s p = true <-> starts_with p s.
Proof.
  unfold startswith, starts_with. revert s.
  induction p as [|a p IH]; intros s.
  - split; [intros _; exists s; reflexivity | intros _; now destruct s].
  - destruct s as [|b s]; simpl.
    + split; [discriminate | intros [r Hr]; discriminate].
    + destruct (ascii_dec a b) as [->|Hab].
      * rewrite IH. split; intros [r Hr]; exists r; [now rewrite Hr | now injection Hr].
      * split; [discriminate | intros [r Hr]; injection Hr; intros _ E; now symmetry in E].
Qed.

Lemma startswith_length (s p : string) :
  startswith s p = true -> String.length p <= String.length s.
Proof.
  rewrite startswith_spec. intros [r ->]. rewrite length_append. lia.
Qed.

Lemma substring_all (s : string) : String.substring 0 (String.length s) s = s.
Proof. induction s as [|c s IH]; simpl; [reflexivity | now rewrite IH]. Qed.

Lemma length_substring (n m : nat) (s : string) :
  n + m <= String.length s -> String.length (String.substring n m s) = m.
Proof.
  revert n m. induction s as [|c s IH]; intros n m H; simpl in *.
  - destruct n, m; simpl in *; try lia; reflexivity.
  - destruct n as [|n].
    + destruct m as [|m]; simpl; [reflexivity | rewrite (IH 0 m); [reflexivity | lia]].
    + apply IH. lia.
Qed.

Lemma index_bound (sep s : string) (n i : nat) :
  String.index n sep s = Some i -> i + String.length sep <= String.length s.
Proof.
  revert n i. induction s as [|c s IH]; intros n i; cbn [String.index].
  - destruct n; [destruct sep; [intros [= <-]; simpl; lia | discriminate] | discriminate].
  - destruct n as [|n].
    + destruct (String.prefix sep (String c s)) eqn:Hp.
      * intros [= <-]. apply (startswith_length (String c s) sep) in Hp. simpl in *. lia.
      * destruct (String.index 0 sep s) as [j|] eqn:Hj; [|discriminate].
        intros [= <-]. apply IH in Hj. cbn [String.length]. lia.
    + destruct (String.index n sep s) as [j|] eqn:Hj; [|discriminate].
      intros [= <-]. apply IH in Hj. cbn [String.length]. lia.
Qed.

Lemma substring_empty (n m : nat) : String.substring n m EmptyString = EmptyString.
Proof. destruct n, m; reflexivity. Qed.

Lemma substring_split (m : nat) (s : string) :
  m <= String.length s ->
  s = String.substring 0 m s +:+ String.substring m (String.length s - m) s.
Proof.
  revert m. induction s as [|c s IH]; intros m H.
  - destruct m; [reflexivity | simpl in H; lia].
  - destruct m as [|m].
    + rewrite Nat.sub_0_r, substring_all. reflexivity.
    + cbn [String.substring String.length Nat.sub].
      change (String c s = String c (String.substring 0 m s
                +:+ String.substring m (String.length s - m) s)).
      f_equal. apply IH. simpl in H. lia.
Qed.

Lemma substring_shift (n k m : nat) (s : string) :
  String.substring (n + k) m s
  = String.substring k m (String.substring n (String.length s - n) s).
Proof.
  revert n. induction s as [|c s IH]; intros n.
  - now rewrite !substring_empty.
  - destruct n as [|n].
    + now rewrite Nat.sub_0_r, substring_all.
    + cbn [String.substring String.length Nat.sub Nat.add]. apply IH.
Qed.

Lemma find_bound (sep s : string) (i : nat) :
  find sep s = Some i -> i + String.length sep <= String.length s.
Proof. apply index_bound. Qed.

(** [find] returns a position where [sep] occurs, and the first one. *)
Lemma find_occurs (sep s : string) (i : nat) :
  find sep s = Some i -> String.substring i (String.length sep) s = sep.
Proof. apply String.index_correct1. Qed.

Lemma find_first (sep s : string) (i j : nat) :
  find sep s = Some i -> j < i -> String.substring j (String.length sep) s <> sep.
Proof. intros H Hj. apply (String.index_correct2 0 i sep s H j); lia. Qed.

Lemma length_slice_from (i : nat) (s : string) :
  i <= String.length s -> String.length (slice_from i s) = String.length s - i.
Proof. intros H. unfold slice_from. apply length_substring. lia. Qed.

(** The separator found by [find] cuts the string in three. *)
Lemma find_cut (sep s : string) (i : nat) :
  find sep s = Some i ->
  s = slice_to i s +:+ sep +:+ slice_from (i + String.length sep) s.
Proof.
  intros Hi. pose proof (find_bound _ _ _ Hi) as Hb.
  pose proof (find_occurs _ _ _ Hi) as Ho.
  rewrite (substring_split i s) at 1 by lia.
  unfold slice_to. f_equal. fold (slice_from i s).
  rewrite (substring_split (String.length sep) (slice_from i s)) at 1
    by (rewrite length_slice_from; lia).
  f_equal.
  - unfold slice_from.
    rewrite <- (substring_shift i 0 (String.length sep) s), Nat.add_0_r. exact Ho.
  - rewrite length_slice_from by lia. unfold slice_from at 1 2.
    rewrite <- substring_shift. f_equal. lia.
Qed.

(** The number of rounds given to [split_loop] does not matter once it
    reaches the length of the string. *)
Lemma split_loop_enough (sep : string) (f1 f2 : nat) (s : string) :
  sep <> EmptyString -> String.length s <= f1 -> String.length s <= f2 ->
  split_loop f1 sep s = split_loop f2 sep s.
Proof.
  intros Hsep. revert f2 s.
  induction f1 as [|f1 IH]; intros f2 s H1 H2.
  - destruct s; [|simpl in H1; lia].
    destruct f2; simpl; unfold find; simpl; destruct sep; congruence.
  - destruct f2 as [|f2].
    + destruct s; [|simpl in H2; lia].
      simpl; unfold find; simpl; destruct sep; congruence.
    + simpl. destruct (find sep s) as [i|] eqn:Hi; [|reflexivity].
      pose proof (find_bound _ _ _ Hi) as Hb.
      assert (0 < String.length sep) by (destruct sep; simpl; [congruence | lia]).
      f_equal. apply IH; rewrite length_slice_from; lia.
Qed.

Lemma split_loop_fuel (sep : string) (fuel : nat) (s : string) :
  sep <> EmptyString -> String.length s <= fuel ->
  split_loop fuel sep s = split_loop (String.length s) sep s.
Proof. intros Hsep H. apply split_loop_enough; [assumption | assumption | lia]. Qed.

(** [split] follows Python's definition: the text before the first
    separator, then the split of the text after it. *)
Lemma split_unfold (sep s : string) :
  sep <> EmptyString ->
  split sep s =
    match find sep s with
    | None => Some [s]
    | Some i =>
        tl ← split sep (slice_from (i + String.length sep) s);
        Some (slice_to i s :: tl)
    end.
Proof.
  intros Hsep. unfold split.
  destruct (String.eqb_spec sep EmptyString) as [|_]; [contradiction|].
  destruct (find sep s) as [i|] eqn:Hi.
  - pose proof (find_bound _ _ _ Hi) as Hb.
    assert (0 < String.length sep) by (destruct sep; simpl; [congruence | lia]).
    cbn [mbind option_bind].
    rewrite <- (split_loop_fuel sep (String.length s - 1)
                  (slice_from (i + String.length sep) s) Hsep)
      by (rewrite length_slice_from; lia).
    destruct (String.length s) as [|n] eqn:Hn; [lia|].
    cbn [split_loop]. rewrite Hi.
    replace (S n - 1) with n by lia. reflexivity.
  - destruct (String.length s); cbn [split_loop]; now rewrite Hi.
Qed.

Lemma split_total (sep s : string) :
  sep <> EmptyString -> exists parts, split sep s = Some parts /\ 1 <= length parts.
Proof.
  intros Hsep. unfold split.
  destruct (String.eqb_spec sep EmptyString) as [|_]; [contradiction|].
  eexists; split; [reflexivity|].
  destruct (String.length s); simpl; destruct (find sep s); simpl; lia.
Qed.

End StringFacts.

(** ** Facts about stripping *)

Section StripFacts.

Lemma lstrip_first (s : string) (c : ascii) :
  first_char (lstrip s) = Some c -> is_space c = false.
Proof.
  induction s as [|a s IH]; simpl; [discriminate|].
  destruct (is_space a) eqn:Ha; [exact IH|].
  simpl. now intros [= <-].
Qed.

Lemma rstrip_first (s : string) (c : ascii) :
  first_char (rstrip s) = Some c -> first_char s = Some c.
Proof.
  destruct s as [|a s]; simpl; [discriminate|].
  destruct (rstrip s); [destruct (is_space a)|]; simpl; congruence.
Qed.

Lemma rstrip_last (s : string) (c : ascii) :
  last_char (rstrip s) = Some c -> is_space c = false.
Proof.
  induction s as [|a s IH]; simpl; [discriminate|].
  destruct (rstrip s) as [|b r] eqn:Hr.
  - destruct (is_space a) eqn:Ha; simpl; [discriminate | now intros [= <-]].
  - intros H. apply IH. exact H.
Qed.

Lemma strip_trimmed (s : string) : trimmed (strip s).
Proof.
  split; intros c H.
  - apply (lstrip_first s). now apply rstrip_first.
  - now apply (rstrip_last (lstrip s)).
Qed.

Lemma lstrip_empty (s : string) : lstrip s = EmptyString <-> all_space s = true.
Proof.
  induction s as [|a s IH]; simpl; [tauto|].
  destruct (is_space a); simpl; [exact IH | split; discriminate].
Qed.

Lemma rstrip_empty (s : string) : rstrip s = EmptyString <-> all_space s = true.
Proof.
  induction s as [|a s IH]; simpl; [tauto|].
  destruct (rstrip s) as [|b r].
  - destruct (is_space a); simpl; [|split; discriminate].
    split; [intros _; now apply IH | reflexivity].
  - split; [discriminate|].
    intros [_ H]%andb_true_iff. apply IH in H. discriminate.
Qed.

Lemma strip_empty (s : string) : strip s = EmptyString <-> all_space s = true.
Proof.
  unfold strip. rewrite rstrip_empty. split.
  - intros H. apply lstrip_empty.
    destruct (lstrip s) as [|c t] eqn:Hl; [reflexivity|].
    simpl in H. apply andb_true_iff in H as [Hc _].
    pose proof (lstrip_first s c) as Hf. rewrite Hl in Hf.
    rewrite Hf in Hc; [discriminate | reflexivity].
  - intros H%lstrip_empty. now rewrite H.
Qed.

Lemma clean_result_lines (entrez_result : list string) (e : string) :
  In e (clean_result entrez_result) <->
  exists r, In r entrez_result /\ r <> newline /\ e = strip r.
Proof.
  unfold clean_result. rewrite in_map_iff. split.
  - intros (r & <- & [Hin Hne]%filter_In). exists r. repeat split; [assumption|].
    intros ->. now rewrite String.eqb_refl in Hne.
  - intros (r & Hin & Hne & ->). exists r. split; [reflexivity|].
    apply filter_In. split; [assumption|].
    now apply negb_true_iff, String.eqb_neq.
Qed.

End StripFacts.

(** ** Facts about validation and extraction *)

Section ParseFacts.

Lemma filter_first (f : string -> bool) (l : list string) (x : string) :
  List.filter f l !! 0%nat = Some x <->
  exists before after,
    l = before ++ x :: after /\ f x = true /\ forall y, y ∈ before -> f y = false.
Proof.
  induction l as [|a l IH]; simpl.
  - split; [discriminate | intros ([|? ?] & ? & ? & _); discriminate].
  - destruct (f a) eqn:Ha; simpl.
    + split.
      * intros [= <-]. exists [], l. repeat split; [assumption|].
        intros y Hy. inversion Hy.
      * intros ([|b before] & after & Hl & Hx & Hb).
        -- now injection Hl as -> _.
        -- injection Hl as <- _. rewrite (Hb a) in Ha; [discriminate | left].
    + rewrite IH. split.
      * intros (before & after & -> & Hx & Hb). exists (a :: before), after.
        repeat split; [assumption|]. intros y [->|Hy]%elem_of_cons; auto.
      * intros ([|b before] & after & Hl & Hx & Hb).
        -- injection Hl as <- _. congruence.
        -- injection Hl as <- ->. exists before, after.
           repeat split; [assumption|]. intros y Hy. apply Hb. now right.
Qed.

Lemma filter_first_prefix (p : string) (l : list string) (x : string) :
  List.filter (fun result => startswith result p) l !! 0%nat = Some x <->
  first_with_prefix p l x.
Proof.
  rewrite filter_first. unfold first_with_prefix.
  split; intros (before & after & Hl & Hx & Hb); exists before, after;
    (split; [exact Hl|]); split.
  - now apply startswith_spec.
  - intros y Hy Hs. apply startswith_spec in Hs. rewrite (Hb y Hy) in Hs. discriminate.
  - now apply startswith_spec.
  - intros y Hy. destruct (startswith y p) eqn:E; [|reflexivity].
    exfalso. apply (Hb y Hy). now apply startswith_spec.
Qed.

Lemma existsb_filter_first (f : string -> bool) (l : list string) :
  existsb f l = true -> exists x, List.filter f l !! 0%nat = Some x /\ f x = true.
Proof.
  induction l as [|a l IH]; simpl; [discriminate|].
  destruct (f a) eqn:Ha; simpl; [intros _; now exists a | exact IH].
Qed.

Lemma check_true (cleaned_result : list string) :
  check_proper_entrez_response cleaned_result = true <->
  existsb (fun result => startswith result "1. ") cleaned_result = true /\
  existsb (fun result => startswith result "BioProject Accession: ") cleaned_result = true.
Proof.
  unfold check_proper_entrez_response.
  destruct (existsb _ cleaned_result); simpl; [|intuition discriminate].
  destruct (existsb _ cleaned_result); simpl; intuition discriminate.
Qed.

Lemma find_accession_line (rest : string) :
  find ": " ("BioProject Accession: " +:+ rest) = Some 20.
Proof. destruct rest; reflexivity. Qed.

(** Splitting an accession line: the marker's own [": "] is the first cut. *)
Lemma split_accession_line (rest : string) :
  split ": " ("BioProject Accession: " +:+ rest) =
  (tl ← split ": " rest; Some ("BioProject Accession" :: tl)).
Proof.
  rewrite split_unfold by discriminate.
  rewrite find_accession_line.
  change (slice_to 20 ("BioProject Accession: " +:+ rest)) with "BioProject Accession".
  replace (slice_from (20 + String.length ": ") ("BioProject Accession: " +:+ rest))
    with rest; [reflexivity|].
  unfold slice_from. simpl. change (EmptyString +:+ rest) with rest.
  now rewrite Nat.sub_0_r, substring_all.
Qed.

Lemma after_first_accession_line (rest : string) :
  after_first ": " ("BioProject Accession: " +:+ rest) = Some rest.
Proof.
  unfold after_first. rewrite find_accession_line.
  unfold slice_from. simpl. change (EmptyString +:+ rest) with rest.
  now rewrite Nat.sub_0_r, substring_all.
Qed.

Lemma split_second_field (rest : string) :
  exists parts,
    split ": " ("BioProject Accession: " +:+ rest) = Some parts /\
    2 <= length parts /\
    parts !! 1%nat = Some (before_first ": " rest).
Proof.
  rewrite split_accession_line, split_unfold by discriminate.
  unfold before_first. destruct (find ": " rest) as [j|].
  - destruct (split_total ": " (slice_from (j + String.length ": ") rest))
      as (tl & -> & _); [discriminate|].
    eexists. split; [reflexivity|]. split; [simpl; lia | reflexivity].
  - eexists. split; [reflexivity|]. split; [simpl; lia | reflexivity].
Qed.

Lemma accession_field_line (rest : string) :
  accession_field ("BioProject Accession: " +:+ rest) = Some (before_first ": " rest).
Proof.
  unfold accession_field.
  destruct (split_second_field rest) as (parts & -> & _ & Hp). exact Hp.
Qed.

Lemma before_first_whole (sep s : string) :
  sep <> EmptyString -> before_first sep s = s <-> find sep s = None.
Proof.
  intros Hsep. unfold before_first.
  destruct (find sep s) as [j|] eqn:Hj; [|split; reflexivity].
  split; [|discriminate]. intros H. exfalso.
  pose proof (find_bound _ _ _ Hj) as Hb.
  assert (0 < String.length sep) by (destruct sep; simpl; [congruence | lia]).
  assert (String.length (slice_to j s) = j) as Hlen
      by (apply length_substring; lia).
  rewrite H in Hlen. lia.
Qed.

(** A validated response always parses. *)
Lemma parse_entry_valid (cleaned_result : list string) :
  check_proper_entrez_response cleaned_result = true ->
  exists abstract rest,
    abstract_lines cleaned_result !! 0%nat = Some abstract /\
    accession_lines cleaned_result !! 0%nat = Some ("BioProject Accession: " +:+ rest) /\
    parse_entry cleaned_result = Some (before_first ": " rest, abstract).
Proof.
  intros [H1 H2]%check_true.
  apply existsb_filter_first in H1 as (abstract & Ha & _).
  apply existsb_filter_first in H2 as (line & Hl & [rest ->]%startswith_spec).
  exists abstract, rest. split; [exact Ha|]. split; [exact Hl|].
  unfold parse_entry. fold (abstract_lines cleaned_result) in Ha.
  fold (accession_lines cleaned_result) in Hl.
  rewrite Ha, Hl. cbn [mbind option_bind].
  now rewrite accession_field_line.
Qed.

End ParseFacts.

(** ** Facts about the two loops *)

Section SearchFacts.

Context {W : Type}.
Variable requests_get : string -> W -> response * W.

Lemma sys_eta (s : sys W) : {| env := env s; trace := trace s ++ [] |} = s.
Proof. destruct s; simpl; now rewrite app_nil_r. Qed.

Lemma keyword_url_total (keyword from_date to_date : string) :
  exists url, keyword_url keyword from_date to_date = Some url.
Proof.
  unfold keyword_url.
  destruct (split_total " " keyword) as (words & -> & _); [discriminate|].
  eexists; reflexivity.
Qed.

Lemma urls_of_cons (keyword : string) (keywords : list string)
      (from_date to_date url : string) :
  keyword_url keyword from_date to_date = Some url ->
  urls_of (keyword :: keywords) from_date to_date
  = url :: urls_of keywords from_date to_date.
Proof. intros H. unfold urls_of. cbn [omap list_omap]. now rewrite H. Qed.

Lemma elem_of_returned_ids (rs : list response) (x : string) :
  x ∈ returned_ids rs <->
  exists r idlist, r ∈ rs /\ json_idlist r = Some idlist /\ x ∈ idlist.
Proof.
  unfold returned_ids. rewrite list_elem_of_join. split.
  - intros (idlist & Hx & (r & Hr & Hj)%list_elem_of_omap). now exists r, idlist.
  - intros (r & idlist & Hr & Hj & Hx). exists idlist. split; [assumption|].
    apply list_elem_of_omap. now exists r.
Qed.

(** While the requests succeed, the loop appends the identifier lists
    and goes on with the remaining keywords. *)
Lemma search_loop_prefix (from_date to_date : string) (pre rest : list string) :
  forall (results_list : list string) (s : sys W),
    Forall succeeded
      (answers requests_get (urls_of pre from_date to_date) (env s)).1 ->
    search_loop W requests_get (pre ++ rest) from_date to_date results_list s
    = search_loop W requests_get rest from_date to_date
        (results_list
           ++ returned_ids (answers requests_get (urls_of pre from_date to_date) (env s)).1)
        {| env := (answers requests_get (urls_of pre from_date to_date) (env s)).2;
           trace := trace s ++ map HttpGet (urls_of pre from_date to_date) |}.
Proof.
  induction pre as [|keyword pre IH]; intros results_list s Hok.
  - simpl. unfold returned_ids. simpl. now rewrite app_nil_r, sys_eta.
  - destruct (keyword_url_total keyword from_date to_date) as [url Hurl].
    rewrite (urls_of_cons _ _ _ _ _ Hurl) in *.
    cbn [answers] in *. cbn [app search_loop].
    unfold bind at 1. rewrite Hurl. cbn [lift].
    unfold bind at 1, call_get.
    destruct (requests_get url (env s)) as [r w'] eqn:Hget.
    destruct (answers requests_get (urls_of pre from_date to_date) w') as [rs w'']
      eqn:Hans.
    cbn [fst snd] in *.
    apply Forall_cons in Hok as [[H200 [idlist Hids]] Hok].
    rewrite H200. cbn [Z.eqb Pos.eqb]. unfold bind at 1. rewrite Hids. cbn [lift].
    rewrite IH; cbn [env trace]; rewrite Hans; cbn [fst snd]; [|exact Hok].
    unfold returned_ids. cbn [omap list_omap]. rewrite Hids. cbn [mjoin list_join].
    now rewrite <- !app_assoc.
Qed.

End SearchFacts.

Section ConvertFacts.

Context {W : Type}.
Variable entrez_efetch : string -> W -> fetch_result * W.
Variable py_str : list string -> string.

Lemma fetch_attempts_returns (attempts : nat) (bioproject_id : string) :
  forall s : sys W,
  exists fetched s',
    fetch_attempts W entrez_efetch attempts bioproject_id s = (Returned fetched, s').
Proof.
  induction attempts as [|n IH]; intros s; cbn [fetch_attempts].
  - eexists _, _; reflexivity.
  - unfold bind, call_efetch.
    destruct (entrez_efetch bioproject_id (env s)) as [[lines|] w'].
    + eexists _, _; reflexivity.
    + apply IH.
Qed.

(** When every attempt raises, the retry loop makes all its attempts and
    ends in its [else] clause. *)
Lemma fetch_attempts_exhausted (attempts : nat) (bioproject_id : string) :
  (forall w, (entrez_efetch bioproject_id w).1 = FetchError) ->
  forall s : sys W,
    fetch_attempts W entrez_efetch attempts bioproject_id s
    = (Returned None,
       {| env := after_fetches entrez_efetch attempts bioproject_id (env s);
          trace := trace s ++ replicate attempts (Efetch bioproject_id) |}).
Proof.
  intros Hdown. induction attempts as [|n IH]; intros s; cbn [fetch_attempts].
  - cbn [after_fetches replicate]. now rewrite sys_eta.
  - unfold bind, call_efetch.
    pose proof (Hdown (env s)) as Hs.
    destruct (entrez_efetch bioproject_id (env s)) as [r w'] eqn:Hf.
    cbn [fst] in Hs. subst r. rewrite IH. cbn [env trace after_fetches replicate].
    rewrite Hf. cbn [snd]. now rewrite <- app_assoc.
Qed.

(** One round of the outer loop always completes, and touches the
    failure map at most at the identifier it handles. *)
Lemma convert_body_returns (bioproject_id : string)
      (accessions failed : gmap string string) (s : sys W) :
  exists step accessions' failed' s',
    convert_body W entrez_efetch py_str bioproject_id (accessions, failed) s
    = (Returned (step, (accessions', failed')), s') /\
    dom failed' ⊆ dom failed ∪ {[bioproject_id]}.
Proof.
  unfold convert_body, bind at 1.
  destruct (fetch_attempts_returns 3 bioproject_id s) as (fetched & s' & ->).
  destruct fetched as [entrez_result|].
  - destruct (check_proper_entrez_response (clean_result entrez_result)) eqn:Hc.
    + destruct (parse_entry_valid _ Hc) as (abstract & rest & _ & _ & ->).
      unfold bind, lift, ret. eexists _, _, _, _. split; [reflexivity|]. set_solver.
    + unfold ret. eexists _, _, _, _. split; [reflexivity|].
      rewrite dom_insert. set_solver.
  - unfold ret. eexists _, _, _, _. split; [reflexivity|].
    rewrite dom_insert. set_solver.
Qed.

Lemma convert_loop_returns (bioproject_ids : list string) :
  forall (accessions failed : gmap string string) (s : sys W),
  exists accessions' failed' s',
    convert_loop W entrez_efetch py_str bioproject_ids (accessions, failed) s
    = (Returned (accessions', failed'), s') /\
    dom failed' ⊆ dom failed ∪ list_to_set bioproject_ids.
Proof.
  induction bioproject_ids as [|bioproject_id ids IH]; intros accessions failed s.
  - exists accessions, failed, s. split; [reflexivity | set_solver].
  - cbn [convert_loop]. unfold bind at 1.
    destruct (convert_body_returns bioproject_id accessions failed s)
      as (step & accessions1 & failed1 & s1 & -> & Hdom).
    destruct step.
    + destruct (IH accessions1 failed1 s1) as (accessions2 & failed2 & s2 & -> & Hdom2).
      exists accessions2, failed2, s2. split; [reflexivity | set_solver].
    + exists accessions1, failed1, s1. split; [reflexivity | set_solver].
Qed.

End ConvertFacts.

(** ** The repository's tests and some runs of the primitives *)

Example split_keeps_empty_fields :
  split ": " "a: " = Some ["a"; ""] /\
  split " " "Fecal  Microbiota" = Some ["Fecal"; ""; "Microbiota"] /\
  split ": " "no separator" = Some ["no separator"] /\
  split "" "abc" = None.
Proof. repeat split. Qed.

Example strip_both_ends :
  strip ("  BioProject Accession: PRJNA2 " +:+ newline) = "BioProject Accession: PRJNA2".
Proof. reflexivity. Qed.

Example test_check_proper_entrez_response_returns_true :
  check_proper_entrez_response ["1. test"; "BioProject Accession: test"] = true.
Proof. reflexivity. Qed.

Example test_check_proper_entrez_response_returns_false :
  check_proper_entrez_response ["test"; "test"] = false.
Proof. reflexivity. Qed.

Example test_check_proper_entrez_response_returns_false_2 :
  check_proper_entrez_response ["1. test"; "test"] = false /\
  check_proper_entrez_response ["test"; "BioProject Accession: test"] = false.
Proof. split; reflexivity. Qed.

Example test_check_proper_entrez_response_handles_more_entries :
  check_proper_entrez_response ["1. test"; "BioProject Accession: test"; "test"; "test"] = true /\
  check_proper_entrez_response ["1. test"; "test"; "BioProject Accession: test"; "test"] = true /\
  check_proper_entrez_response ["test"; "1. test"; "test"; "BioProject Accession: test"] = true /\
  check_proper_entrez_response ["test"; "test"; "1. test"; "BioProject Accession: test"] = true /\
  check_proper_entrez_response ["test"; "test"; "BioProject Accession: test"; "1. test"] = true.
Proof. repeat split. Qed.

(** A fetch that succeeds at the second attempt yields a result entry
    and no failure entry. *)
Example convert_retry_success :
  convert_ids_to_accessions nat (Scripted.efetch Scripted.flaky) Scripted.show
    ["801993"] "user@example.org" Scripted.start
  = (Returned ({["PRJNA2" := "1. Gut study"]}, ∅),
     {| env := 2; trace := [Efetch "801993"; Efetch "801993"] |}).
Proof. vm_compute. reflexivity. Qed.

(** ** Validation, cleaning and extraction: the specification's claims *)

(** C3.  [check_proper_entrez_response] answers true exactly when some
    line starts with ["1. "] and some line starts with
    ["BioProject Accession: "]; only membership counts, so positions,
    order and other lines play no role. *)
Theorem check_proper_entrez_response_iff (cleaned_result : list string) :
  check_proper_entrez_response cleaned_result = true <->
  (exists line, line ∈ cleaned_result /\ starts_with "1. " line) /\
  (exists line, line ∈ cleaned_result /\ starts_with "BioProject Accession: " line).
Proof.
  rewrite check_true, !existsb_exists.
  split; intros [(a & Ha & Sa) (b & Hb & Sb)]; split.
  - exists a. split; [now apply list_elem_of_In | now apply startswith_spec].
  - exists b. split; [now apply list_elem_of_In | now apply startswith_spec].
  - exists a. split; [now apply list_elem_of_In | now apply startswith_spec].
  - exists b. split; [now apply list_elem_of_In | now apply startswith_spec].
Qed.

(** C7, as stated, fails: a raw line made of a space and a line feed is
    not equal to ["\n"], so it is kept and becomes the empty string. *)
Lemma clean_result_keeps_blank_line :
  clean_result [" " +:+ newline] = [""] /\
  ~ Forall (fun e => strip e <> "") (clean_result [" " +:+ newline]).
Proof.
  split; [reflexivity|].
  intros H. apply Forall_cons in H as [H _]. now apply H.
Qed.

Lemma clean_result_cons (r : string) (entrez_result : list string) :
  clean_result (r :: entrez_result)
  = if String.eqb r newline then clean_result entrez_result
    else strip r :: clean_result entrez_result.
Proof. unfold clean_result. cbn [List.filter]. now destruct (String.eqb r newline). Qed.

Lemma clean_result_app (raw1 raw2 : list string) :
  clean_result (raw1 ++ raw2) = clean_result raw1 ++ clean_result raw2.
Proof. unfold clean_result. now rewrite List.filter_app, map_app. Qed.

Lemma clean_result_length (entrez_result : list string) :
  length (clean_result entrez_result) + count_occ string_dec entrez_result newline
  = length entrez_result.
Proof.
  induction entrez_result as [|r raw IH]; [reflexivity|].
  rewrite clean_result_cons. cbn [count_occ length].
  destruct (String.eqb_spec r newline) as [->|Hne].
  - destruct (string_dec newline newline); [lia | congruence].
  - destruct (string_dec r newline); [congruence | cbn [length]; lia].
Qed.

(** C7, amended.  Every element of the cleaned sequence is
    whitespace-trimmed and is the stripped form of a raw line other than
    ["\n"]; it is empty exactly when that raw line holds nothing but
    whitespace.  Only the lines equal to ["\n"] are removed: every other
    raw line is kept in its stripped form and in its place, so a
    whitespace-only line other than ["\n"] stays in the cleaned sequence as
    the empty string. *)
Theorem clean_result_trimmed (entrez_result : list string) :
  Forall (fun e =>
            trimmed e /\
            exists r, r ∈ entrez_result /\ r <> newline /\ e = strip r /\
                      (e = "" <-> all_space r = true))
         (clean_result entrez_result) /\
  (forall r, r ∈ entrez_result -> r <> newline -> strip r ∈ clean_result entrez_result) /\
  (forall r, r ∈ entrez_result -> r <> newline -> all_space r = true ->
             "" ∈ clean_result entrez_result) /\
  (forall before r after,
      entrez_result = before ++ r :: after -> r <> newline ->
      clean_result entrez_result
      = clean_result before ++ strip r :: clean_result after) /\
  (forall before after,
      entrez_result = before ++ newline :: after ->
      clean_result entrez_result = clean_result before ++ clean_result after) /\
  length (clean_result entrez_result) + count_occ string_dec entrez_result newline
  = length entrez_result.
Proof.
  assert (forall r, r ∈ entrez_result -> r <> newline ->
                    strip r ∈ clean_result entrez_result) as Hkept.
  { intros r Hr Hne. apply list_elem_of_In, clean_result_lines.
    exists r. split; [now apply list_elem_of_In | now split]. }
  split; [|split; [exact Hkept|split; [|split; [|split]]]].
  - apply List.Forall_forall. intros e (r & Hr & Hne & ->)%clean_result_lines.
    split; [apply strip_trimmed|].
    exists r. split; [now apply list_elem_of_In|]. split; [assumption|].
    split; [reflexivity | apply strip_empty].
  - intros r Hr Hne Hsp. apply strip_empty in Hsp. rewrite <- Hsp. now apply Hkept.
  - intros before r after -> Hne. rewrite clean_result_app, clean_result_cons.
    now apply String.eqb_neq in Hne as ->.
  - intros before after ->. rewrite clean_result_app, clean_result_cons.
    now rewrite String.eqb_refl.
  - apply clean_result_length.
Qed.

(** C9.  After a successful validation no index is out of range: both
    filtered lists are non-empty, every accession line splits on [": "]
    into at least two parts, and the extraction returns an entry. *)
Theorem parse_entry_in_range (cleaned_result : list string) :
  check_proper_entrez_response cleaned_result = true ->
  abstract_lines cleaned_result <> [] /\
  accession_lines cleaned_result <> [] /\
  (forall line, line ∈ accession_lines cleaned_result ->
     exists parts, split ": " line = Some parts /\ 2 <= length parts) /\
  is_Some (parse_entry cleaned_result).
Proof.
  intros Hc. destruct (parse_entry_valid _ Hc) as (abstract & rest & Ha & Hl & Hp).
  split; [intros E; now rewrite E in Ha|].
  split; [intros E; now rewrite E in Hl|].
  split; [|now rewrite Hp].
  intros line [_ [r ->]%startswith_spec]%list_elem_of_In%filter_In.
  destruct (split_second_field r) as (parts & Hs & Hlen & _). now exists parts.
Qed.

Lemma parse_entry_in_range_witness :
  check_proper_entrez_response ["ID: 1"; "1. Gut study"; "BioProject Accession: PRJNA2"] = true /\
  is_Some (parse_entry ["ID: 1"; "1. Gut study"; "BioProject Accession: PRJNA2"]).
Proof.
  split; [reflexivity|].
  apply (parse_entry_in_range ["ID: 1"; "1. Gut study"; "BioProject Accession: PRJNA2"]).
  reflexivity.
Defined.

(** C2, as stated, fails: [split(": ")[1]] stops at the next [": "], so
    for the accession line ["BioProject Accession: a: b"] the code keeps
    ["a"] and not the whole remainder ["a: b"]. *)
Lemma accession_not_whole_remainder :
  check_proper_entrez_response ["1. t"; "BioProject Accession: a: b"] = true /\
  accession_lines ["1. t"; "BioProject Accession: a: b"] !! 0%nat
    = Some "BioProject Accession: a: b" /\
  parse_entry ["1. t"; "BioProject Accession: a: b"] = Some ("a", "1. t") /\
  after_first ": " "BioProject Accession: a: b" = Some "a: b" /\
  fst <$> parse_entry ["1. t"; "BioProject Accession: a: b"]
    <> after_first ": " "BioProject Accession: a: b".
Proof. repeat split; try reflexivity. vm_compute. discriminate. Qed.

(** C2, amended.  For a validated response the accession code is taken
    from the first line starting with ["BioProject Accession: "]: it is
    the text strictly after the first [": "] of that line, up to the next
    [": "] if there is one.  It is the whole remainder exactly when the
    remainder holds no [": "]. *)
Theorem accession_is_second_field (cleaned_result : list string) :
  check_proper_entrez_response cleaned_result = true ->
  exists line rest abstract,
    first_with_prefix "BioProject Accession: " cleaned_result line /\
    line = "BioProject Accession: " +:+ rest /\
    after_first ": " line = Some rest /\
    parse_entry cleaned_result = Some (before_first ": " rest, abstract) /\
    (before_first ": " rest = rest <-> find ": " rest = None).
Proof.
  intros Hc. destruct (parse_entry_valid _ Hc) as (abstract & rest & _ & Hl & Hp).
  exists ("BioProject Accession: " +:+ rest), rest, abstract.
  split; [now apply filter_first_prefix|].
  split; [reflexivity|].
  split; [apply after_first_accession_line|].
  split; [exact Hp|]. now apply before_first_whole.
Qed.

Lemma accession_is_second_field_witness :
  check_proper_entrez_response ["1. t"; "BioProject Accession: a: b"] = true /\
  exists line rest abstract,
    first_with_prefix "BioProject Accession: " ["1. t"; "BioProject Accession: a: b"] line /\
    line = "BioProject Accession: " +:+ rest /\
    after_first ": " line = Some rest /\
    parse_entry ["1. t"; "BioProject Accession: a: b"]
      = Some (before_first ": " rest, abstract) /\
    (before_first ": " rest = rest <-> find ": " rest = None).
Proof.
  split; [reflexivity|].
  apply (accession_is_second_field ["1. t"; "BioProject Accession: a: b"]).
  reflexivity.
Defined.

(** ** The two loops: the specification's claims *)

Section SearchClaims.

Context {W : Type}.
Variable requests_get : string -> W -> response * W.

(** C4.  When every search request succeeds, the result has no
    duplicates and holds exactly the identifiers of the per-keyword
    lists, whether or not those lists overlap. *)
Theorem search_in_bioproject_union (keywords : list string)
        (from_date to_date : string) (s : sys W) :
  Forall succeeded
    (answers requests_get (urls_of keywords from_date to_date) (env s)).1 ->
  exists results_list s',
    search_in_bioproject W requests_get keywords from_date to_date s
    = (Returned results_list, s') /\
    NoDup results_list /\
    forall x, x ∈ results_list <->
      exists r idlist,
        r ∈ (answers requests_get (urls_of keywords from_date to_date) (env s)).1 /\
        json_idlist r = Some idlist /\ x ∈ idlist.
Proof.
  intros Hok. unfold search_in_bioproject, bind.
  pose proof (search_loop_prefix requests_get from_date to_date keywords [] [] s Hok)
    as Hrun.
  rewrite app_nil_r in Hrun. rewrite Hrun.
  cbn [search_loop ret app]. eexists _, _. split; [reflexivity|].
  split; [apply NoDup_elements|].
  intros x. rewrite elem_of_elements, elem_of_list_to_set.
  apply elem_of_returned_ids.
Qed.

(** C5.  A non-200 answer for a phrase ends the run at once with
    [exit(1)]: nothing is returned, and the request for that phrase is
    the last one made. *)
Theorem search_in_bioproject_aborts (pre post : list string) (keyword : string)
        (from_date to_date url : string) (s : sys W) :
  Forall succeeded
    (answers requests_get (urls_of pre from_date to_date) (env s)).1 ->
  keyword_url keyword from_date to_date = Some url ->
  status_code
    (requests_get url
       (answers requests_get (urls_of pre from_date to_date) (env s)).2).1 <> 200%Z ->
  search_in_bioproject W requests_get (pre ++ keyword :: post) from_date to_date s
  = (Exited 1,
     {| env := (requests_get url
                  (answers requests_get (urls_of pre from_date to_date) (env s)).2).2;
        trace := trace s ++ map HttpGet (urls_of pre from_date to_date ++ [url]) |}).
Proof.
  intros Hok Hurl Hstatus. unfold search_in_bioproject, bind at 1.
  rewrite (search_loop_prefix requests_get from_date to_date pre (keyword :: post) [] s Hok).
  cbn [search_loop]. unfold bind at 1. rewrite Hurl. cbn [lift].
  unfold bind at 1, call_get. cbn [env trace].
  destruct (requests_get url _) as [r w'] eqn:Hget. cbn [fst snd] in *.
  apply Z.eqb_neq in Hstatus. rewrite Hstatus. unfold exit.
  now rewrite map_app, app_assoc.
Qed.

End SearchClaims.

Section ConvertClaims.

Context {W : Type}.
Variable entrez_efetch : string -> W -> fetch_result * W.
Variable py_str : list string -> string.

Lemma convert_body_valid (bioproject_id : string)
      (accessions failed : gmap string string) (s s1 : sys W)
      (entrez_result : list string) (accession abstract : string) :
  fetch_attempts W entrez_efetch 3 bioproject_id s = (Returned (Some entrez_result), s1) ->
  check_proper_entrez_response (clean_result entrez_result) = true ->
  parse_entry (clean_result entrez_result) = Some (accession, abstract) ->
  convert_body W entrez_efetch py_str bioproject_id (accessions, failed) s
  = (Returned (Next, (<[accession := abstract]> accessions, failed)), s1).
Proof.
  intros Hf Hc Hp. unfold convert_body, bind at 1. rewrite Hf, Hc.
  unfold bind, lift. now rewrite Hp.
Qed.

Lemma convert_body_exhausted (bioproject_id : string)
      (accessions failed : gmap string string) (s : sys W) :
  (forall w, (entrez_efetch bioproject_id w).1 = FetchError) ->
  convert_body W entrez_efetch py_str bioproject_id (accessions, failed) s
  = (Returned (Break, (accessions, <[bioproject_id := "Failed to fetch"]> failed)),
     {| env := after_fetches entrez_efetch 3 bioproject_id (env s);
        trace := trace s ++ replicate 3 (Efetch bioproject_id) |}).
Proof.
  intros Hdown. unfold convert_body, bind.
  now rewrite (fetch_attempts_exhausted entrez_efetch 3 bioproject_id Hdown).
Qed.

(** C6.  An identifier whose fetch raises at every attempt is fetched
    exactly three times; the failure map then holds exactly
    [identifier -> "Failed to fetch"] and the result map is empty. *)
Theorem convert_single_failed_fetch (bioproject_id email : string) (s : sys W) :
  (forall w, (entrez_efetch bioproject_id w).1 = FetchError) ->
  convert_ids_to_accessions W entrez_efetch py_str [bioproject_id] email s
  = (Returned (∅, {[bioproject_id := "Failed to fetch"]}),
     {| env := after_fetches entrez_efetch 3 bioproject_id (env s);
        trace := trace s ++ [Efetch bioproject_id; Efetch bioproject_id;
                             Efetch bioproject_id] |}).
Proof.
  intros Hdown. unfold convert_ids_to_accessions. cbn [convert_loop].
  unfold bind. now rewrite (convert_body_exhausted _ _ _ _ Hdown).
Qed.

(** C8.  Every identifier whose cleaned response passes validation
    contributes [accession -> abstract], where the abstract is the first
    line starting with ["1. "] and the accession is the second [": "]-field
    of the first line starting with ["BioProject Accession: "].  The
    insertion overwrites: whatever an earlier identifier left under that
    accession is replaced, the other entries stay, and when the next
    identifier resolves to the same accession its abstract replaces this
    one in turn. *)
Theorem convert_inserts_overwriting (bioproject_id : string)
        (accessions failed : gmap string string) (s s1 : sys W)
        (entrez_result : list string) :
  fetch_attempts W entrez_efetch 3 bioproject_id s = (Returned (Some entrez_result), s1) ->
  check_proper_entrez_response (clean_result entrez_result) = true ->
  exists abstract line accession,
    first_with_prefix "1. " (clean_result entrez_result) abstract /\
    first_with_prefix "BioProject Accession: " (clean_result entrez_result) line /\
    accession_field line = Some accession /\
    convert_body W entrez_efetch py_str bioproject_id (accessions, failed) s
    = (Returned (Next, (<[accession := abstract]> accessions, failed)), s1) /\
    (forall bioproject_ids,
        convert_loop W entrez_efetch py_str (bioproject_id :: bioproject_ids)
          (accessions, failed) s
        = convert_loop W entrez_efetch py_str bioproject_ids
            (<[accession := abstract]> accessions, failed) s1) /\
    (<[accession := abstract]> accessions) !! accession = Some abstract /\
    (forall key, key <> accession ->
                 (<[accession := abstract]> accessions) !! key = accessions !! key) /\
    (forall id2 raw2 s2,
        fetch_attempts W entrez_efetch 3 id2 s1 = (Returned (Some raw2), s2) ->
        check_proper_entrez_response (clean_result raw2) = true ->
        exists abstract2 line2 accession2,
          first_with_prefix "1. " (clean_result raw2) abstract2 /\
          first_with_prefix "BioProject Accession: " (clean_result raw2) line2 /\
          accession_field line2 = Some accession2 /\
          convert_loop W entrez_efetch py_str [bioproject_id; id2] (accessions, failed) s
          = (Returned (<[accession2 := abstract2]> (<[accession := abstract]> accessions),
                       failed), s2) /\
          (accession = accession2 ->
           convert_loop W entrez_efetch py_str [bioproject_id; id2] (accessions, failed) s
           = (Returned (<[accession2 := abstract2]> accessions, failed), s2))).
Proof.
  intros Hf1 Hc1.
  destruct (parse_entry_valid _ Hc1) as (abstract1 & rest1 & Ha1 & Hl1 & Hp1).
  exists abstract1, ("BioProject Accession: " +:+ rest1), (before_first ": " rest1).
  pose proof (convert_body_valid _ accessions failed _ _ _ _ _ Hf1 Hc1 Hp1) as Hbody.
  assert (forall bioproject_ids,
             convert_loop W entrez_efetch py_str (bioproject_id :: bioproject_ids)
               (accessions, failed) s
             = convert_loop W entrez_efetch py_str bioproject_ids
                 (<[before_first ": " rest1 := abstract1]> accessions, failed) s1)
    as Hstep.
  { intros ids. cbn [convert_loop]. unfold bind at 1. now rewrite Hbody. }
  split; [now apply filter_first_prefix|].
  split; [now apply filter_first_prefix|].
  split; [apply accession_field_line|].
  split; [exact Hbody|]. split; [exact Hstep|].
  split; [apply lookup_insert_eq|].
  split; [intros key Hne; now apply lookup_insert_ne|].
  intros id2 raw2 s2 Hf2 Hc2.
  destruct (parse_entry_valid _ Hc2) as (abstract2 & rest2 & Ha2 & Hl2 & Hp2).
  exists abstract2, ("BioProject Accession: " +:+ rest2), (before_first ": " rest2).
  assert (convert_loop W entrez_efetch py_str [bioproject_id; id2] (accessions, failed) s
          = (Returned (<[before_first ": " rest2 := abstract2]>
                         (<[before_first ": " rest1 := abstract1]> accessions),
                       failed), s2)) as Hrun.
  { rewrite Hstep. cbn [convert_loop]. unfold bind at 1.
    now rewrite (convert_body_valid _ _ _ _ _ _ _ _ Hf2 Hc2 Hp2). }
  split; [now apply filter_first_prefix|].
  split; [now apply filter_first_prefix|].
  split; [apply accession_field_line|].
  split; [exact Hrun|].
  intros E. rewrite Hrun, E. now rewrite insert_insert_eq.
Qed.

(** C10.  Whatever the fetch endpoint does, the run returns, every key
    of the failure map is one of the input identifiers, and no key occurs
    twice. *)
Theorem failed_keys_are_inputs (bioproject_ids : list string) (email : string)
        (s : sys W) :
  exists accessions failed s',
    convert_ids_to_accessions W entrez_efetch py_str bioproject_ids email s
    = (Returned (accessions, failed), s') /\
    (forall key, key ∈ dom failed -> key ∈ bioproject_ids) /\
    NoDup (map_to_list failed).*1.
Proof.
  unfold convert_ids_to_accessions.
  destruct (convert_loop_returns entrez_efetch py_str bioproject_ids ∅ ∅ s)
    as (accessions & failed & s' & Hrun & Hdom).
  exists accessions, failed, s'. split; [exact Hrun|].
  split; [|apply NoDup_fst_map_to_list].
  intros key Hkey. apply Hdom in Hkey. set_solver.
Qed.

End ConvertClaims.

(** ** The claims on scripted worlds *)

(** A failed fetch leaves the outer loop: the [break] of the retry loop's
    [else] clause belongs to the loop over the identifiers, so the
    identifiers after the failed one are never handled. *)
Lemma convert_loop_break_on_failed_fetch {W : Type}
      (entrez_efetch : string -> W -> fetch_result * W)
      (py_str : list string -> string)
      (bioproject_id : string) (bioproject_ids : list string)
      (dicts : gmap string string * gmap string string) (s : sys W) :
  (forall w, (entrez_efetch bioproject_id w).1 = FetchError) ->
  convert_loop W entrez_efetch py_str (bioproject_id :: bioproject_ids) dicts s
  = convert_loop W entrez_efetch py_str [bioproject_id] dicts s.
Proof.
  intros Hdown. destruct dicts as [accessions failed]. cbn [convert_loop].
  unfold bind. now rewrite (convert_body_exhausted _ _ _ _ _ _ Hdown).
Qed.

(** C1.  The code at the identifiers 1 and 2, when the endpoint is down
    for 1 only: the run stops after the three attempts for 1, identifier 2
    is never fetched and its accession is missing from the result, although
    a run on 2 alone resolves it. *)
Theorem convert_stops_at_failed_fetch :
  convert_ids_to_accessions nat (Scripted.efetch Scripted.down_for_1) Scripted.show
    ["1"; "2"] "user@example.org" Scripted.start
  = (Returned (∅, {["1" := "Failed to fetch"]}),
     {| env := 3; trace := [Efetch "1"; Efetch "1"; Efetch "1"] |}) /\
  convert_ids_to_accessions nat (Scripted.efetch Scripted.down_for_1) Scripted.show
    ["2"] "user@example.org" Scripted.start
  = (Returned ({["PRJNA2" := "1. Gut study"]}, ∅),
     {| env := 1; trace := [Efetch "2"] |}).
Proof. split; vm_compute; reflexivity. Qed.

Lemma search_in_bioproject_union_witness :
  Forall succeeded
    (answers (Scripted.get Scripted.overlapping)
       (urls_of ["Fecal Microbiota"; "FMT"] "2022/01/01" "2022/08/31")
       (env Scripted.start)).1 /\
  exists results_list s',
    search_in_bioproject nat (Scripted.get Scripted.overlapping)
      ["Fecal Microbiota"; "FMT"] "2022/01/01" "2022/08/31" Scripted.start
    = (Returned results_list, s') /\
    NoDup results_list /\
    forall x, x ∈ results_list <->
      exists r idlist,
        r ∈ (answers (Scripted.get Scripted.overlapping)
               (urls_of ["Fecal Microbiota"; "FMT"] "2022/01/01" "2022/08/31")
               (env Scripted.start)).1 /\
        json_idlist r = Some idlist /\ x ∈ idlist.
Proof.
  assert (Forall succeeded
            (answers (Scripted.get Scripted.overlapping)
               (urls_of ["Fecal Microbiota"; "FMT"] "2022/01/01" "2022/08/31")
               (env Scripted.start)).1) as Hok.
  { vm_compute. repeat constructor; eexists; reflexivity. }
  split; [exact Hok|].
  exact (search_in_bioproject_union (Scripted.get Scripted.overlapping)
           ["Fecal Microbiota"; "FMT"] "2022/01/01" "2022/08/31" Scripted.start Hok).
Defined.

Lemma search_in_bioproject_aborts_witness :
  exists url,
    Forall succeeded
      (answers (Scripted.get Scripted.second_fails)
         (urls_of ["Fecal"] "2022/01/01" "2022/08/31") (env Scripted.start)).1 /\
    keyword_url "FMT" "2022/01/01" "2022/08/31" = Some url /\
    status_code
      (Scripted.get Scripted.second_fails url
         (answers (Scripted.get Scripted.second_fails)
            (urls_of ["Fecal"] "2022/01/01" "2022/08/31") (env Scripted.start)).2).1
    <> 200%Z /\
    search_in_bioproject nat (Scripted.get Scripted.second_fails)
      (["Fecal"] ++ "FMT" :: ["Faecal"]) "2022/01/01" "2022/08/31" Scripted.start
    = (Exited 1,
       {| env := (Scripted.get Scripted.second_fails url
                    (answers (Scripted.get Scripted.second_fails)
                       (urls_of ["Fecal"] "2022/01/01" "2022/08/31")
                       (env Scripted.start)).2).2;
          trace := trace Scripted.start
                   ++ map HttpGet (urls_of ["Fecal"] "2022/01/01" "2022/08/31" ++ [url]) |}).
Proof.
  destruct (keyword_url_total "FMT" "2022/01/01" "2022/08/31") as [url Hurl].
  assert (Forall succeeded
            (answers (Scripted.get Scripted.second_fails)
               (urls_of ["Fecal"] "2022/01/01" "2022/08/31") (env Scripted.start)).1)
    as Hok.
  { vm_compute. repeat constructor; eexists; reflexivity. }
  assert (status_code
            (Scripted.get Scripted.second_fails url
               (answers (Scripted.get Scripted.second_fails)
                  (urls_of ["Fecal"] "2022/01/01" "2022/08/31") (env Scripted.start)).2).1
          <> 200%Z) as Hstatus.
  { vm_compute. discriminate. }
  exists url. split; [exact Hok|]. split; [exact Hurl|]. split; [exact Hstatus|].
  exact (search_in_bioproject_aborts (Scripted.get Scripted.second_fails)
           ["Fecal"] ["Faecal"] "FMT" "2022/01/01" "2022/08/31" url Scripted.start
           Hok Hurl Hstatus).
Defined.

Lemma convert_single_failed_fetch_witness :
  (forall w, (Scripted.efetch Scripted.always_down "801993" w).1 = FetchError) /\
  convert_ids_to_accessions nat (Scripted.efetch Scripted.always_down) Scripted.show
    ["801993"] "user@example.org" Scripted.start
  = (Returned (∅, {["801993" := "Failed to fetch"]}),
     {| env := after_fetches (Scripted.efetch Scripted.always_down) 3 "801993"
                 (env Scripted.start);
        trace := trace Scripted.start
                 ++ [Efetch "801993"; Efetch "801993"; Efetch "801993"] |}).
Proof.
  split; [intros w; reflexivity|].
  apply (convert_single_failed_fetch (Scripted.efetch Scripted.always_down) Scripted.show
           "801993" "user@example.org" Scripted.start).
  intros w. reflexivity.
Defined.

Lemma convert_inserts_overwriting_witness :
  fetch_attempts nat (Scripted.efetch Scripted.same_project) 3 "7" Scripted.start
  = (Returned (Some (Scripted.record "first title" "PRJNA9")),
     {| env := 1; trace := [Efetch "7"] |}) /\
  check_proper_entrez_response
    (clean_result (Scripted.record "first title" "PRJNA9")) = true /\
  convert_body nat (Scripted.efetch Scripted.same_project) Scripted.show "7"
    ({["PRJNA9" := "1. stale title"]}, ∅) Scripted.start
  = (Returned (Next, (<["PRJNA9" := "1. first title"]> {["PRJNA9" := "1. stale title"]},
                      ∅)),
     {| env := 1; trace := [Efetch "7"] |}) /\
  convert_loop nat (Scripted.efetch Scripted.same_project) Scripted.show
    ["7"; "8"] ({["PRJNA9" := "1. stale title"]}, ∅) Scripted.start
  = (Returned (<["PRJNA9" := "1. second title"]> {["PRJNA9" := "1. stale title"]}, ∅),
     {| env := 2; trace := [Efetch "7"; Efetch "8"] |}).
Proof.
  split; [reflexivity|]. split; [reflexivity|].
  destruct (convert_inserts_overwriting (Scripted.efetch Scripted.same_project) Scripted.show
              "7" {["PRJNA9" := "1. stale title"]} ∅ Scripted.start
              {| env := 1; trace := [Efetch "7"] |}
              (Scripted.record "first title" "PRJNA9")
              eq_refl eq_refl)
    as (abstract1 & line1 & accession1 & Ha1 & Hl1 & Hf1 & Hbody & _ & _ & _ & Hnext).
  apply filter_first_prefix in Hl1, Ha1.
  vm_compute in Hl1, Ha1. injection Hl1 as <-. injection Ha1 as <-.
  vm_compute in Hf1. injection Hf1 as <-.
  split; [exact Hbody|].
  destruct (Hnext "8" (Scripted.record "second title" "PRJNA9")
              {| env := 2; trace := [Efetch "7"; Efetch "8"] |} eq_refl eq_refl)
    as (abstract2 & line2 & accession2 & Ha2 & Hl2 & Hf2 & _ & Hsame).
  apply filter_first_prefix in Hl2, Ha2.
  vm_compute in Hl2, Ha2. injection Hl2 as <-. injection Ha2 as <-.
  vm_compute in Hf2. injection Hf2 as <-.
  exact (Hsame eq_refl).
Defined.

(** ** Further properties of the program *)

(** *** Strings: one-character separators *)

Section CharFacts.

Lemma prefix_empty (s : string) : String.prefix EmptyString s = true.
Proof. now destruct s. Qed.

Lemma split_cons_some (sep s hd : string) (tl : list string) :
  split sep s = Some (hd :: tl) -> sep <> EmptyString.
Proof.
  unfold split. destruct (String.eqb_spec sep EmptyString); [discriminate | auto].
Qed.

(** Splitting on a character, one character at a time. *)
Lemma split_char_cons (a c : ascii) (s hd : string) (tl : list string) :
  split (String a EmptyString) s = Some (hd :: tl) ->
  split (String a EmptyString) (String c s)
  = Some (if Ascii.eqb c a then EmptyString :: hd :: tl else String c hd :: tl).
Proof.
  intros Hs. rewrite split_unfold by discriminate.
  rewrite split_unfold in Hs by discriminate.
  unfold find in *. cbn [String.index String.prefix].
  destruct (ascii_dec a c) as [<-|Hne].
  - rewrite prefix_empty, Ascii.eqb_refl.
    replace (slice_from (0 + String.length (String a EmptyString)) (String a s)) with s.
    + rewrite split_unfold by discriminate. unfold find.
      destruct (String.index 0 (String a EmptyString) s) as [n|];
        cbn [mbind option_bind] in *; [|now injection Hs as <- <-].
      destruct (split _ _) as [l|]; cbn [mbind option_bind] in *; [|discriminate].
      now injection Hs as <- <-.
    + unfold slice_from. cbn. now rewrite Nat.sub_0_r, substring_all.
  - assert (Ascii.eqb c a = false) as -> by (apply Ascii.eqb_neq; congruence).
    destruct (String.index 0 (String a EmptyString) s) as [n|];
      cbn [mbind option_bind] in *; [|now injection Hs as <- <-].
    replace (slice_from (S n + String.length (String a EmptyString)) (String c s))
      with (slice_from (n + String.length (String a EmptyString)) s)
      by (unfold slice_from; reflexivity).
    destruct (split _ _) as [l|]; cbn [mbind option_bind] in *; [|discriminate].
    injection Hs as <- <-. reflexivity.
Qed.

Lemma join_cons_char (b c : ascii) (hd : string) (tl : list string) :
  join (String b EmptyString) (String c hd :: tl)
  = String c (join (String b EmptyString) (hd :: tl)).
Proof. unfold join. cbn [String.concat]. now destruct tl. Qed.

(** [new.join(s.split(old))] for one-character [old] and [new] changes
    every [old] into [new]. *)
Lemma join_split_char (a b : ascii) (s : string) :
  exists hd tl,
    split (String a EmptyString) s = Some (hd :: tl) /\
    join (String b EmptyString) (hd :: tl) = subst_char a b s.
Proof.
  induction s as [|c s (hd & tl & Hs & Hj)].
  - exists EmptyString, []. split; reflexivity.
  - rewrite (split_char_cons a c s hd tl Hs). cbn [subst_char].
    destruct (Ascii.eqb c a).
    + exists EmptyString, (hd :: tl). split; [reflexivity|].
      rewrite <- Hj. reflexivity.
    + exists (String c hd), tl. split; [reflexivity|].
      now rewrite join_cons_char, Hj.
Qed.

Lemma replace_char (a b : ascii) (s : string) :
  replace (String a EmptyString) (String b EmptyString) s = subst_char a b s.
Proof.
  unfold replace. destruct (join_split_char a b s) as (hd & tl & -> & Hj). exact Hj.
Qed.

Lemma length_subst_char (a b : ascii) (s : string) :
  String.length (subst_char a b s) = String.length s.
Proof. induction s as [|c s IH]; simpl; [reflexivity | now rewrite IH]. Qed.

Lemma has_char_subst_char (a b : ascii) (s : string) :
  a <> b -> has_char a (subst_char a b s) = false.
Proof.
  intros Hab. induction s as [|c s IH]; [reflexivity|].
  cbn [subst_char has_char]. rewrite IH, orb_false_r.
  destruct (Ascii.eqb_spec c a) as [->|Hca]; apply Ascii.eqb_neq; congruence.
Qed.

Lemma has_char_append (a : ascii) (s t : string) :
  has_char a (s +:+ t) = has_char a s || has_char a t.
Proof.
  induction s as [|c s IH]; [reflexivity|].
  change (String c s +:+ t) with (String c (s +:+ t)).
  cbn [has_char]. now rewrite IH, orb_assoc.
Qed.

End CharFacts.

(** X1.  The request URL is built for every keyword, and its phrase is the
    keyword with each space changed into [+]: it has the keyword's length
    and holds no space. *)
Theorem keyword_url_phrase (keyword from_date to_date : string) :
  keyword_url keyword from_date to_date
  = Some (("https://eutils.ncbi.nlm.nih.gov/entrez/eutils/esearch.fcgi?db=BioProject&term=("
             +:+ subst_char " " "+" keyword +:+ ")")
          +:+ ("+AND+(" +:+ dquote +:+ from_date +:+ dquote
                 +:+ "[Registration%20Date]%20:%20%22" +:+ to_date
                 +:+ "%22[Registration%20Date])")
          +:+ "&RetMax=999999&retmode=json") /\
  String.length (subst_char " " "+" keyword) = String.length keyword /\
  has_char " " (subst_char " " "+" keyword) = false.
Proof.
  split; [|split; [apply length_subst_char | now apply has_char_subst_char]].
  unfold keyword_url.
  destruct (join_split_char " " "+" keyword) as (hd & tl & -> & Hj).
  cbn [mbind option_bind]. now rewrite Hj.
Qed.

(** X13.  With the default [--output] and [--failed] values, the file names
    derived from the dates hold no [/], whatever the dates are; any other
    value is used as it is. *)
Theorem default_file_names_flat (from_date to_date : string) :
  has_char "/" (output_file_name "output-from_date-to_date.csv" from_date to_date) = false /\
  has_char "/" (failed_file_name "failed-from_date-to_date.csv" from_date to_date) = false /\
  String.length (output_file_name "output-from_date-to_date.csv" from_date to_date)
  = 12 + String.length from_date + String.length to_date /\
  (forall output, output <> "output-from_date-to_date.csv" ->
                  output_file_name output from_date to_date = output) /\
  (forall failed, failed <> "failed-from_date-to_date.csv" ->
                  failed_file_name failed from_date to_date = failed).
Proof.
  unfold output_file_name, failed_file_name.
  rewrite !String.eqb_refl, !(replace_char "/" "-").
  repeat split.
  - rewrite !has_char_append, !has_char_subst_char by discriminate. reflexivity.
  - rewrite !has_char_append, !has_char_subst_char by discriminate. reflexivity.
  - rewrite !length_append, !length_subst_char. simpl. lia.
  - intros output Hne. now apply String.eqb_neq in Hne as ->.
  - intros failed Hne. now apply String.eqb_neq in Hne as ->.
Qed.

(** *** Cleaning *)

Section CleanFacts.

Lemma lstrip_fixed (s : string) :
  (forall c, first_char s = Some c -> is_space c = false) -> lstrip s = s.
Proof.
  destruct s as [|a s]; [reflexivity|]. intros H. cbn [lstrip].
  now rewrite (H a eq_refl).
Qed.

Lemma rstrip_fixed (s : string) :
  (forall c, last_char s = Some c -> is_space c = false) -> rstrip s = s.
Proof.
  induction s as [|a s IH]; [reflexivity|]. intros H. cbn [rstrip].
  destruct s as [|b s].
  - cbn [rstrip]. now rewrite (H a eq_refl).
  - rewrite IH by (intros c Hc; apply H; exact Hc). reflexivity.
Qed.

Lemma strip_fixed (s : string) : trimmed s -> strip s = s.
Proof.
  intros [Hf Hl]. unfold strip. rewrite (lstrip_fixed s Hf). now apply rstrip_fixed.
Qed.

Lemma trimmed_not_newline (s : string) : trimmed s -> s <> newline.
Proof. intros [Hf _] ->. specialize (Hf _ eq_refl). discriminate. Qed.

End CleanFacts.

(** X5.  Cleaning is idempotent: a cleaned response holds no line equal
    to ["\n"] and only stripped lines, so cleaning it again changes
    nothing. *)
Theorem clean_result_idempotent (entrez_result : list string) :
  clean_result (clean_result entrez_result) = clean_result entrez_result.
Proof.
  unfold clean_result at 1.
  assert (Forall trimmed (clean_result entrez_result)) as Ht.
  { apply List.Forall_forall. intros e (r & _ & _ & ->)%clean_result_lines.
    apply strip_trimmed. }
  induction Ht as [|e l He Hl IH]; [reflexivity|].
  cbn [List.filter].
  destruct (String.eqb_spec e newline) as [E|_];
    [now apply trimmed_not_newline in He|].
  cbn [negb map]. now rewrite IH, (strip_fixed e He).
Qed.

(** *** The search loop *)

Section SearchMore.

Context {W : Type}.
Variable requests_get : string -> W -> response * W.

(** The requests of the loop are the URLs of a prefix of the vocabulary,
    in order, whatever the endpoint answers. *)
Lemma search_loop_trace (from_date to_date : string) (keywords : list string) :
  forall (results_list : list string) (s : sys W),
  exists n result,
    n <= length keywords /\
    search_loop W requests_get keywords from_date to_date results_list s
    = (result,
       {| env := (answers requests_get
                    (take n (urls_of keywords from_date to_date)) (env s)).2;
          trace := trace s
                   ++ map HttpGet (take n (urls_of keywords from_date to_date)) |}) /\
    (forall l, result = Returned l -> n = length keywords).
Proof.
  induction keywords as [|keyword keywords IH]; intros results_list s.
  - exists 0, (Returned results_list). split; [reflexivity|]. split; [|reflexivity].
    cbn. unfold ret. now rewrite sys_eta.
  - destruct (keyword_url_total keyword from_date to_date) as [url Hurl].
    rewrite (urls_of_cons _ _ _ _ _ Hurl).
    cbn [search_loop]. unfold bind at 1. rewrite Hurl. cbn [lift].
    unfold bind at 1, call_get.
    destruct (requests_get url (env s)) as [r w'] eqn:Hget.
    destruct (status_code r =? 200)%Z.
    + unfold bind at 1. destruct (json_idlist r) as [idlist|]; cbn [lift].
      * destruct (IH (results_list ++ idlist)
                     {| env := w'; trace := trace s ++ [HttpGet url] |})
          as (n & result & Hn & Hrun & Hret).
        exists (S n), result. split; [cbn [length]; lia|]. split.
        -- rewrite Hrun. cbn [take answers env trace map]. rewrite Hget.
           destruct (answers requests_get _ w') as [rs w'']. cbn [snd].
           now rewrite <- app_assoc.
        -- intros l Hl. cbn [length]. f_equal. now apply (Hret l).
      * exists 1, Raised. split; [cbn [length]; lia|]. split; [|discriminate].
        cbn [snd take answers map]. now rewrite Hget.
    + exists 1, (Exited 1). split; [cbn [length]; lia|]. split; [|discriminate].
      unfold exit. cbn [snd take answers map]. now rewrite Hget.
Qed.

(** X2.  Whatever the endpoint answers, [search_in_bioproject] requests
    the URLs of the keywords in order, one request each, up to the keyword
    at which it stops; when it returns, every keyword was requested. *)
Theorem search_in_bioproject_requests (keywords : list string)
        (from_date to_date : string) (s : sys W) :
  exists n result,
    n <= length keywords /\
    search_in_bioproject W requests_get keywords from_date to_date s
    = (result,
       {| env := (answers requests_get
                    (take n (urls_of keywords from_date to_date)) (env s)).2;
          trace := trace s
                   ++ map HttpGet (take n (urls_of keywords from_date to_date)) |}) /\
    (forall l, result = Returned l -> n = length keywords).
Proof.
  destruct (search_loop_trace from_date to_date keywords [] s)
    as (n & result & Hn & Hrun & Hret).
  unfold search_in_bioproject, bind. rewrite Hrun.
  destruct result as [l| |].
  - exists n, (Returned (elements (list_to_set l : gset string))).
    split; [exact Hn|]. split; [reflexivity|]. intros _ _. now apply (Hret l).
  - exists n, (Exited code). split; [exact Hn|]. split; [reflexivity | discriminate].
  - exists n, Raised. split; [exact Hn|]. split; [reflexivity | discriminate].
Qed.

(** X3.  An answer with status 200 whose body holds no identifier list
    makes the run raise at that phrase: nothing is returned, the process
    does not exit through [exit(1)], and no later phrase is requested. *)
Theorem search_in_bioproject_raises (pre post : list string) (keyword : string)
        (from_date to_date url : string) (s : sys W) :
  Forall succeeded
    (answers requests_get (urls_of pre from_date to_date) (env s)).1 ->
  keyword_url keyword from_date to_date = Some url ->
  status_code
    (requests_get url
       (answers requests_get (urls_of pre from_date to_date) (env s)).2).1 = 200%Z ->
  json_idlist
    (requests_get url
       (answers requests_get (urls_of pre from_date to_date) (env s)).2).1 = None ->
  search_in_bioproject W requests_get (pre ++ keyword :: post) from_date to_date s
  = (Raised,
     {| env := (requests_get url
                  (answers requests_get (urls_of pre from_date to_date) (env s)).2).2;
        trace := trace s ++ map HttpGet (urls_of pre from_date to_date ++ [url]) |}).
Proof.
  intros Hok Hurl Hstatus Hbody. unfold search_in_bioproject, bind at 1.
  rewrite (search_loop_prefix requests_get from_date to_date pre (keyword :: post) [] s Hok).
  cbn [search_loop]. unfold bind at 1. rewrite Hurl. cbn [lift].
  unfold bind at 1, call_get. cbn [env trace].
  destruct (requests_get url _) as [r w'] eqn:Hget. cbn [fst snd] in *.
  rewrite Hstatus. cbn [Z.eqb Pos.eqb]. unfold bind. rewrite Hbody. cbn [lift].
  now rewrite map_app, app_assoc.
Qed.

End SearchMore.

Lemma search_in_bioproject_raises_witness :
  exists url,
    Forall succeeded
      (answers (Scripted.get Scenario.malformed_second)
         (urls_of ["Fecal"] "2022/01/01" "2022/08/31") (env Scripted.start)).1 /\
    keyword_url "FMT" "2022/01/01" "2022/08/31" = Some url /\
    search_in_bioproject nat (Scripted.get Scenario.malformed_second)
      (["Fecal"] ++ "FMT" :: ["Faecal"]) "2022/01/01" "2022/08/31" Scripted.start
    = (Raised,
       {| env := 2;
          trace := map HttpGet (urls_of ["Fecal"] "2022/01/01" "2022/08/31" ++ [url]) |}).
Proof.
  destruct (keyword_url_total "FMT" "2022/01/01" "2022/08/31") as [url Hurl].
  assert (Forall succeeded
            (answers (Scripted.get Scenario.malformed_second)
               (urls_of ["Fecal"] "2022/01/01" "2022/08/31") (env Scripted.start)).1)
    as Hok.
  { vm_compute. repeat constructor; eexists; reflexivity. }
  exists url. split; [exact Hok|]. split; [exact Hurl|].
  exact (search_in_bioproject_raises (Scripted.get Scenario.malformed_second)
           ["Fecal"] ["Faecal"] "FMT" "2022/01/01" "2022/08/31" url Scripted.start
           Hok Hurl eq_refl eq_refl).
Defined.

Section SearchOrder.

Context {W : Type}.
Variable requests_get : string -> W -> response * W.
Variable answer : string -> response.
Hypothesis stateless : forall url w, requests_get url w = (answer url, w).

Lemma answers_stateless (urls : list string) (w : W) :
  answers requests_get urls w = (map answer urls, w).
Proof.
  induction urls as [|url urls IH]; [reflexivity|].
  cbn [answers map]. now rewrite stateless, IH.
Qed.

Lemma search_stateless (keywords : list string) (from_date to_date : string)
      (s : sys W) :
  (forall url, url ∈ urls_of keywords from_date to_date -> succeeded (answer url)) ->
  exists results_list s',
    search_in_bioproject W requests_get keywords from_date to_date s
    = (Returned results_list, s') /\
    NoDup results_list /\
    forall x, x ∈ results_list <->
      exists keyword url idlist,
        keyword ∈ keywords /\ keyword_url keyword from_date to_date = Some url /\
        json_idlist (answer url) = Some idlist /\ x ∈ idlist.
Proof.
  intros Hok.
  assert (Forall succeeded
            (answers requests_get (urls_of keywords from_date to_date) (env s)).1) as Hall.
  { rewrite answers_stateless. cbn [fst]. apply Forall_fmap, List.Forall_forall.
    intros url Hurl. apply Hok. now apply list_elem_of_In. }
  pose proof (search_loop_prefix requests_get from_date to_date keywords [] [] s Hall)
    as Hrun.
  rewrite app_nil_r in Hrun. unfold search_in_bioproject, bind. rewrite Hrun.
  cbn [search_loop ret app]. eexists _, _. split; [reflexivity|].
  split; [apply NoDup_elements|].
  intros x. rewrite elem_of_elements, elem_of_list_to_set, elem_of_returned_ids.
  rewrite answers_stateless. cbn [fst]. split.
  - intros (r & idlist & (url & -> & Hurl)%list_elem_of_fmap & Hj & Hx).
    apply list_elem_of_omap in Hurl as (keyword & Hk & Hu).
    now exists keyword, url, idlist.
  - intros (keyword & url & idlist & Hk & Hu & Hj & Hx).
    exists (answer url), idlist. split; [|now split].
    apply list_elem_of_fmap. exists url. split; [reflexivity|].
    apply list_elem_of_omap. now exists keyword.
Qed.

(** X4.  Against an endpoint whose answer depends on the URL only, the
    order of the keywords and their repetitions do not matter: two
    vocabularies with the same keywords give the same identifiers. *)
Theorem search_in_bioproject_order (keywords1 keywords2 : list string)
        (from_date to_date : string) (s1 s2 : sys W) :
  (forall url, url ∈ urls_of keywords1 from_date to_date -> succeeded (answer url)) ->
  (forall keyword, keyword ∈ keywords1 <-> keyword ∈ keywords2) ->
  exists results1 results2 s1' s2',
    search_in_bioproject W requests_get keywords1 from_date to_date s1
    = (Returned results1, s1') /\
    search_in_bioproject W requests_get keywords2 from_date to_date s2
    = (Returned results2, s2') /\
    results1 ≡ₚ results2.
Proof.
  intros Hok Hsame.
  assert (forall url, url ∈ urls_of keywords2 from_date to_date -> succeeded (answer url))
    as Hok2.
  { intros url (keyword & Hk & Hu)%list_elem_of_omap. apply Hok.
    apply list_elem_of_omap. exists keyword. split; [now apply Hsame | exact Hu]. }
  destruct (search_stateless keywords1 from_date to_date s1 Hok)
    as (l1 & s1' & Hrun1 & Hnd1 & Hin1).
  destruct (search_stateless keywords2 from_date to_date s2 Hok2)
    as (l2 & s2' & Hrun2 & Hnd2 & Hin2).
  exists l1, l2, s1', s2'. split; [exact Hrun1|]. split; [exact Hrun2|].
  apply NoDup_Permutation; [exact Hnd1 | exact Hnd2 |].
  intros x. rewrite Hin1, Hin2.
  split; intros (keyword & url & idlist & Hk & Hrest);
    exists keyword, url, idlist; (split; [now apply Hsame | exact Hrest]).
Qed.

End SearchOrder.

Lemma search_in_bioproject_order_witness :
  (forall url w, Scenario.stateless url w = (Scenario.by_length url, w)) /\
  (forall url, url ∈ urls_of ["Fecal"; "FMT"] "2022/01/01" "2022/08/31" ->
               succeeded (Scenario.by_length url)) /\
  (forall keyword, keyword ∈ ["Fecal"; "FMT"] <-> keyword ∈ ["FMT"; "Fecal"; "FMT"]) /\
  exists results1 results2 s1' s2',
    search_in_bioproject unit Scenario.stateless ["Fecal"; "FMT"]
      "2022/01/01" "2022/08/31" Scenario.quiet
    = (Returned results1, s1') /\
    search_in_bioproject unit Scenario.stateless ["FMT"; "Fecal"; "FMT"]
      "2022/01/01" "2022/08/31" Scenario.quiet
    = (Returned results2, s2') /\
    results1 ≡ₚ results2.
Proof.
  assert (forall url w, Scenario.stateless url w = (Scenario.by_length url, w)) as H1
      by reflexivity.
  assert (forall url, url ∈ urls_of ["Fecal"; "FMT"] "2022/01/01" "2022/08/31" ->
                      succeeded (Scenario.by_length url)) as H2.
  { intros url _. split; [reflexivity | eexists; reflexivity]. }
  assert (forall keyword, keyword ∈ ["Fecal"; "FMT"] <-> keyword ∈ ["FMT"; "Fecal"; "FMT"])
    as H3 by set_solver.
  split; [exact H1|]. split; [exact H2|]. split; [exact H3|].
  exact (search_in_bioproject_order Scenario.stateless Scenario.by_length H1
           ["Fecal"; "FMT"] ["FMT"; "Fecal"; "FMT"] "2022/01/01" "2022/08/31"
           Scenario.quiet Scenario.quiet H2 H3).
Defined.

(** *** The accession loop *)

Section FieldFacts.

Lemma prefix_substring (p : string) (n : nat) (s : string) :
  String.prefix p (String.substring 0 n s) = true -> String.prefix p s = true.
Proof.
  revert n s. induction p as [|a p IH]; intros n s; [intros _; apply prefix_empty|].
  destruct s as [|b s]; [now rewrite substring_empty|].
  destruct n as [|n]; [discriminate|].
  cbn [String.substring String.prefix].
  destruct (ascii_dec a b); [apply IH | discriminate].
Qed.

(** The text before the first separator holds no separator. *)
Lemma find_before_first (sep s : string) :
  sep <> EmptyString -> find sep (before_first sep s) = None.
Proof.
  intros Hsep. unfold before_first, find, slice_to.
  induction s as [|c s IH].
  - cbn. destruct sep; [contradiction | reflexivity].
  - cbn [String.index].
    destruct (String.prefix sep (String c s)) eqn:Hp.
    + cbn. destruct sep; [contradiction | reflexivity].
    + destruct (String.index 0 sep s) as [n|] eqn:Hn.
      * cbn [String.substring String.index].
        destruct (String.prefix sep (String c (String.substring 0 n s))) eqn:Hq.
        -- apply (prefix_substring sep (S n) (String c s)) in Hq. congruence.
        -- now rewrite IH.
      * cbn [String.index]. now rewrite Hp, Hn.
Qed.

(** What a validated response contributes: a line of the response that
    starts with ["1. "], under a key without [": "]. *)
Lemma parse_entry_shape (cleaned_result : list string) :
  check_proper_entrez_response cleaned_result = true ->
  exists accession abstract,
    parse_entry cleaned_result = Some (accession, abstract) /\
    abstract ∈ cleaned_result /\ starts_with "1. " abstract /\
    find ": " accession = None.
Proof.
  intros Hc. destruct (parse_entry_valid _ Hc) as (abstract & rest & Ha & _ & Hp).
  exists (before_first ": " rest), abstract. split; [exact Hp|].
  apply filter_first in Ha as (before & after & -> & Hs & _).
  split; [apply elem_of_app; right; left|].
  split; [now apply startswith_spec | now apply find_before_first].
Qed.

Lemma clean_result_elem_trimmed (entrez_result : list string) (e : string) :
  e ∈ clean_result entrez_result -> trimmed e.
Proof.
  intros (r & _ & _ & ->)%list_elem_of_In%clean_result_lines. apply strip_trimmed.
Qed.

End FieldFacts.

Section ConvertMore.

Context {W : Type}.
Variable entrez_efetch : string -> W -> fetch_result * W.
Variable py_str : list string -> string.

Lemma size_insert_le (m : gmap string string) (k v : string) :
  size (<[k := v]> m) <= S (size m).
Proof. rewrite map_size_insert. destruct (m !! k); simpl; lia. Qed.

(** The retry loop makes between one and [attempts] calls, all for the
    identifier at hand. *)
Lemma fetch_attempts_count (attempts : nat) (bioproject_id : string) :
  forall s : sys W,
  exists fetched s' count,
    fetch_attempts W entrez_efetch (S attempts) bioproject_id s = (Returned fetched, s') /\
    1 <= count <= S attempts /\
    trace s' = trace s ++ replicate count (Efetch bioproject_id).
Proof.
  induction attempts as [|n IH]; intros s; cbn [fetch_attempts] in *;
    unfold bind, call_efetch in *.
  - destruct (entrez_efetch bioproject_id (env s)) as [[lines|] w'];
      eexists _, _, 1; (split; [reflexivity|]); (split; [lia | reflexivity]).
  - destruct (entrez_efetch bioproject_id (env s)) as [[lines|] w'].
    + eexists _, _, 1. split; [reflexivity|]. split; [lia | reflexivity].
    + destruct (IH {| env := w'; trace := trace s ++ [Efetch bioproject_id] |})
        as (fetched & s' & count & Hrun & Hc & Ht).
      exists fetched, s', (S count). split; [exact Hrun|]. split; [lia|].
      rewrite Ht. cbn [trace replicate]. now rewrite <- app_assoc.
Qed.

(** A fetch that raises [k] times and then answers. *)
Lemma fetch_attempts_recover (k : nat) (bioproject_id : string)
      (entrez_result : list string) :
  forall (attempts : nat) (s : sys W),
    k < attempts ->
    (forall j, j < k ->
       (entrez_efetch bioproject_id
          (after_fetches entrez_efetch j bioproject_id (env s))).1 = FetchError) ->
    (entrez_efetch bioproject_id
       (after_fetches entrez_efetch k bioproject_id (env s))).1 = Lines entrez_result ->
    fetch_attempts W entrez_efetch attempts bioproject_id s
    = (Returned (Some entrez_result),
       {| env := after_fetches entrez_efetch (S k) bioproject_id (env s);
          trace := trace s ++ replicate (S k) (Efetch bioproject_id) |}).
Proof.
  induction k as [|k IH]; intros attempts s Hk Hfail Hok;
    (destruct attempts as [|n]; [lia|]); cbn [fetch_attempts];
    unfold bind, call_efetch.
  - cbn [after_fetches] in *.
    destruct (entrez_efetch bioproject_id (env s)) as [r w'].
    cbn [fst snd] in *. now subst r.
  - pose proof (Hfail 0 ltac:(lia)) as H0. cbn [after_fetches] in H0.
    destruct (entrez_efetch bioproject_id (env s)) as [r w'] eqn:Hf.
    cbn [fst] in H0. subst r.
    rewrite (IH n {| env := w'; trace := trace s ++ [Efetch bioproject_id] |}).
    + cbn [env trace]. cbn [after_fetches replicate]. rewrite Hf. cbn [snd].
      now rewrite <- app_assoc.
    + lia.
    + intros j Hj. specialize (Hfail (S j) ltac:(lia)).
      cbn [after_fetches] in Hfail. now rewrite Hf in Hfail.
    + cbn [after_fetches] in Hok. now rewrite Hf in Hok.
Qed.

Lemma convert_body_none (bioproject_id : string)
      (accessions failed : gmap string string) (s s' : sys W) :
  fetch_attempts W entrez_efetch 3 bioproject_id s = (Returned None, s') ->
  convert_body W entrez_efetch py_str bioproject_id (accessions, failed) s
  = (Returned (Break, (accessions, <[bioproject_id := "Failed to fetch"]> failed)), s').
Proof. intros Hf. unfold convert_body, bind. now rewrite Hf. Qed.

Lemma convert_body_invalid (bioproject_id : string)
      (accessions failed : gmap string string) (s s' : sys W)
      (entrez_result : list string) :
  fetch_attempts W entrez_efetch 3 bioproject_id s = (Returned (Some entrez_result), s') ->
  check_proper_entrez_response (clean_result entrez_result) = false ->
  convert_body W entrez_efetch py_str bioproject_id (accessions, failed) s
  = (Returned (Next, (accessions,
                      <[bioproject_id := py_str (clean_result entrez_result)]> failed)), s').
Proof. intros Hf Hc. unfold convert_body, bind. now rewrite Hf, Hc. Qed.

(** The three ways one round of the outer loop can end. *)
Lemma convert_body_cases (bioproject_id : string)
      (accessions failed : gmap string string) (s : sys W) :
  exists s' count,
    1 <= count <= 3 /\
    trace s' = trace s ++ replicate count (Efetch bioproject_id) /\
    (convert_body W entrez_efetch py_str bioproject_id (accessions, failed) s
     = (Returned (Break, (accessions, <[bioproject_id := "Failed to fetch"]> failed)), s')
     \/ (exists entrez_result accession abstract,
           check_proper_entrez_response (clean_result entrez_result) = true /\
           parse_entry (clean_result entrez_result) = Some (accession, abstract) /\
           convert_body W entrez_efetch py_str bioproject_id (accessions, failed) s
           = (Returned (Next, (<[accession := abstract]> accessions, failed)), s'))
     \/ (exists entrez_result,
           check_proper_entrez_response (clean_result entrez_result) = false /\
           convert_body W entrez_efetch py_str bioproject_id (accessions, failed) s
           = (Returned (Next, (accessions,
                               <[bioproject_id := py_str (clean_result entrez_result)]>
                                 failed)), s'))).
Proof.
  destruct (fetch_attempts_count 2 bioproject_id s) as (fetched & s' & count & Hrun & Hc & Ht).
  exists s', count. split; [exact Hc|]. split; [exact Ht|].
  destruct fetched as [entrez_result|]; [|left; now apply convert_body_none].
  destruct (check_proper_entrez_response (clean_result entrez_result)) eqn:Hcheck.
  - right; left.
    destruct (parse_entry_shape _ Hcheck) as (accession & abstract & Hp & _).
    exists entrez_result, accession, abstract. split; [exact Hcheck|].
    split; [exact Hp|]. eapply convert_body_valid; eassumption.
  - right; right. exists entrez_result. split; [exact Hcheck|].
    now apply convert_body_invalid.
Qed.

End ConvertMore.

Section ConvertSummary.

Context {W : Type}.
Variable entrez_efetch : string -> W -> fetch_result * W.
Variable py_str : list string -> string.

Lemma fetches_of_cons (count : nat) (counts : list nat)
      (bioproject_id : string) (bioproject_ids : list string) :
  fetches_of (count :: counts) (bioproject_id :: bioproject_ids)
  = replicate count (Efetch bioproject_id) ++ fetches_of counts bioproject_ids.
Proof. reflexivity. Qed.

(** What a run of the outer loop adds to the two dictionaries and to the
    trace. *)
Lemma convert_loop_summary (bioproject_ids : list string) :
  forall (accessions failed : gmap string string) (s : sys W),
  exists accessions' failed' s' counts,
    convert_loop W entrez_efetch py_str bioproject_ids (accessions, failed) s
    = (Returned (accessions', failed'), s') /\
    length counts <= length bioproject_ids /\
    Forall (fun count => 1 <= count <= 3) counts /\
    trace s' = trace s ++ fetches_of counts bioproject_ids /\
    size accessions' + size failed' <= size accessions + size failed + length counts /\
    (forall key value, accessions' !! key = Some value ->
       accessions !! key = Some value \/
       (starts_with "1. " value /\ trimmed value /\ find ": " key = None)) /\
    (forall key value, failed' !! key = Some value ->
       failed !! key = Some value \/
       value = "Failed to fetch" \/
       exists entrez_result,
         check_proper_entrez_response (clean_result entrez_result) = false /\
         value = py_str (clean_result entrez_result)).
Proof.
  induction bioproject_ids as [|bioproject_id ids IH]; intros accessions failed s.
  - exists accessions, failed, s, []. split; [reflexivity|]. split; [reflexivity|].
    split; [constructor|]. split; [cbn; now rewrite app_nil_r|].
    split; [cbn; lia|]. split; intros key value H; now left.
  - cbn [convert_loop]. unfold bind at 1.
    destruct (convert_body_cases entrez_efetch py_str bioproject_id accessions failed s)
      as (s1 & count & Hcount & Htrace
          & [Hbody | [(raw & accession & abstract & Hcheck & Hparse & Hbody)
                     | (raw & Hcheck & Hbody)]]); rewrite Hbody.
    + exists accessions, (<[bioproject_id := "Failed to fetch"]> failed), s1, [count].
      split; [reflexivity|]. split; [cbn; lia|]. split; [constructor; [exact Hcount | constructor]|].
      split; [rewrite fetches_of_cons, Htrace;
              change (fetches_of [] ids) with (@nil event); now rewrite app_nil_r|].
      split; [pose proof (size_insert_le failed bioproject_id "Failed to fetch");
              cbn [length]; lia|].
      split; [intros key value H; now left|].
      intros key value [[_ <-]|[_ H]]%lookup_insert_Some; [right; now left | now left].
    + destruct (IH (<[accession := abstract]> accessions) failed s1)
        as (accessions' & failed' & s' & counts & Hrun & Hlen & Hall & Ht & Hsize
            & Hacc & Hfail).
      exists accessions', failed', s', (count :: counts).
      split; [exact Hrun|]. split; [cbn [length]; lia|].
      split; [constructor; assumption|].
      split; [rewrite Ht, Htrace, fetches_of_cons; now rewrite <- app_assoc|].
      split; [pose proof (size_insert_le accessions accession abstract);
              cbn [length]; lia|].
      split; [|exact Hfail].
      intros key value [[[<- <-]|[_ H]]%lookup_insert_Some | H]%Hacc;
        [right | now left | now right].
      destruct (parse_entry_shape _ Hcheck) as (accession' & abstract' & Hp & Hin & Hs & Hf).
      rewrite Hparse in Hp. injection Hp as <- <-.
      split; [exact Hs|]. split; [now apply (clean_result_elem_trimmed raw) | exact Hf].
    + destruct (IH accessions (<[bioproject_id := py_str (clean_result raw)]> failed) s1)
        as (accessions' & failed' & s' & counts & Hrun & Hlen & Hall & Ht & Hsize
            & Hacc & Hfail).
      exists accessions', failed', s', (count :: counts).
      split; [exact Hrun|]. split; [cbn [length]; lia|].
      split; [constructor; assumption|].
      split; [rewrite Ht, Htrace, fetches_of_cons; now rewrite <- app_assoc|].
      split; [pose proof (size_insert_le failed bioproject_id
                            (py_str (clean_result raw)));
              cbn [length]; lia|].
      split; [exact Hacc|].
      intros key value [[[_ <-]|[_ H]]%lookup_insert_Some | H]%Hfail;
        [right; right; now exists raw | now left | now right].
Qed.

(** X6.  A fetch that raises [k < 3] times and then delivers a valid
    response is recovered by the retry: the identifier costs exactly
    [k + 1] calls, its entry lands in the result map and the failure map
    stays empty. *)
Theorem convert_retry_recovers (k : nat) (bioproject_id email : string)
        (entrez_result : list string) (s : sys W) :
  k < 3 ->
  (forall j, j < k ->
     (entrez_efetch bioproject_id
        (after_fetches entrez_efetch j bioproject_id (env s))).1 = FetchError) ->
  (entrez_efetch bioproject_id
     (after_fetches entrez_efetch k bioproject_id (env s))).1 = Lines entrez_result ->
  check_proper_entrez_response (clean_result entrez_result) = true ->
  exists accession abstract,
    parse_entry (clean_result entrez_result) = Some (accession, abstract) /\
    convert_ids_to_accessions W entrez_efetch py_str [bioproject_id] email s
    = (Returned ({[accession := abstract]}, ∅),
       {| env := after_fetches entrez_efetch (S k) bioproject_id (env s);
          trace := trace s ++ replicate (S k) (Efetch bioproject_id) |}).
Proof.
  intros Hk Hfail Hok Hcheck.
  destruct (parse_entry_shape _ Hcheck) as (accession & abstract & Hp & _).
  exists accession, abstract. split; [exact Hp|].
  unfold convert_ids_to_accessions. cbn [convert_loop]. unfold bind at 1.
  rewrite (convert_body_valid entrez_efetch py_str bioproject_id ∅ ∅ s _
             entrez_result accession abstract
             (fetch_attempts_recover entrez_efetch k bioproject_id entrez_result 3 s
                Hk Hfail Hok) Hcheck Hp).
  reflexivity.
Qed.

(** X7.  A response that fails validation is not fatal: the identifier is
    recorded in the failure map with the printed cleaned response, the
    result map is left alone, and the loop goes on with the next
    identifier. *)
Theorem convert_loop_invalid_continues (bioproject_id : string)
        (bioproject_ids : list string) (accessions failed : gmap string string)
        (s s1 : sys W) (entrez_result : list string) :
  fetch_attempts W entrez_efetch 3 bioproject_id s = (Returned (Some entrez_result), s1) ->
  check_proper_entrez_response (clean_result entrez_result) = false ->
  convert_loop W entrez_efetch py_str (bioproject_id :: bioproject_ids)
    (accessions, failed) s
  = convert_loop W entrez_efetch py_str bioproject_ids
      (accessions, <[bioproject_id := py_str (clean_result entrez_result)]> failed) s1.
Proof.
  intros Hf Hc. cbn [convert_loop]. unfold bind at 1.
  now rewrite (convert_body_invalid entrez_efetch py_str _ _ _ _ _ _ Hf Hc).
Qed.

(** X9.  Each identifier adds at most one entry: the sizes of the two
    maps together never exceed the number of identifiers handed in. *)
Theorem convert_sizes_bounded (bioproject_ids : list string) (email : string)
        (s : sys W) :
  exists accessions failed s',
    convert_ids_to_accessions W entrez_efetch py_str bioproject_ids email s
    = (Returned (accessions, failed), s') /\
    size accessions + size failed <= length bioproject_ids.
Proof.
  destruct (convert_loop_summary bioproject_ids ∅ ∅ s)
    as (accessions & failed & s' & counts & Hrun & Hlen & _ & _ & Hsize & _).
  exists accessions, failed, s'. split; [exact Hrun|].
  rewrite !map_size_empty in Hsize. lia.
Qed.

(** X10.  The run only calls the fetch endpoint, for a prefix of the
    identifiers in input order, and between one and three times for each
    identifier of that prefix. *)
Theorem convert_fetch_trace (bioproject_ids : list string) (email : string)
        (s : sys W) :
  exists accessions failed s' counts,
    convert_ids_to_accessions W entrez_efetch py_str bioproject_ids email s
    = (Returned (accessions, failed), s') /\
    length counts <= length bioproject_ids /\
    Forall (fun count => 1 <= count <= 3) counts /\
    trace s' = trace s ++ fetches_of counts bioproject_ids.
Proof.
  destruct (convert_loop_summary bioproject_ids ∅ ∅ s)
    as (accessions & failed & s' & counts & Hrun & Hlen & Hall & Ht & _).
  now exists accessions, failed, s', counts.
Qed.

(** X11.  Every entry of the result map has a stripped line starting with
    ["1. "] as its value (the marker is kept in the description) and a key
    that holds no [": "]. *)
Theorem convert_result_entries (bioproject_ids : list string) (email : string)
        (s : sys W) :
  exists accessions failed s',
    convert_ids_to_accessions W entrez_efetch py_str bioproject_ids email s
    = (Returned (accessions, failed), s') /\
    forall key value, accessions !! key = Some value ->
      starts_with "1. " value /\ trimmed value /\ find ": " key = None.
Proof.
  destruct (convert_loop_summary bioproject_ids ∅ ∅ s)
    as (accessions & failed & s' & counts & Hrun & _ & _ & _ & _ & Hacc & _).
  exists accessions, failed, s'. split; [exact Hrun|].
  intros key value [H|H]%Hacc; [now rewrite lookup_empty in H | exact H].
Qed.

(** X12.  Every diagnostic of the failure map is either
    ["Failed to fetch"] or the printed form of a cleaned response that
    failed validation. *)
Theorem convert_failure_diagnostics (bioproject_ids : list string) (email : string)
        (s : sys W) :
  exists accessions failed s',
    convert_ids_to_accessions W entrez_efetch py_str bioproject_ids email s
    = (Returned (accessions, failed), s') /\
    forall key value, failed !! key = Some value ->
      value = "Failed to fetch" \/
      exists entrez_result,
        check_proper_entrez_response (clean_result entrez_result) = false /\
        value = py_str (clean_result entrez_result).
Proof.
  destruct (convert_loop_summary bioproject_ids ∅ ∅ s)
    as (accessions & failed & s' & counts & Hrun & _ & _ & _ & _ & _ & Hfail).
  exists accessions, failed, s'. split; [exact Hrun|].
  intros key value [H|H]%Hfail; [now rewrite lookup_empty in H | exact H].
Qed.

End ConvertSummary.

(** *** The further properties on scripted worlds *)

Lemma convert_retry_recovers_witness :
  1 < 3 /\
  (forall j, j < 1 ->
     (Scripted.efetch Scripted.flaky "801993"
        (after_fetches (Scripted.efetch Scripted.flaky) j "801993"
           (env Scripted.start))).1 = FetchError) /\
  (Scripted.efetch Scripted.flaky "801993"
     (after_fetches (Scripted.efetch Scripted.flaky) 1 "801993" (env Scripted.start))).1
  = Lines (Scripted.record "Gut study" "PRJNA2") /\
  check_proper_entrez_response (clean_result (Scripted.record "Gut study" "PRJNA2")) = true /\
  exists accession abstract,
    parse_entry (clean_result (Scripted.record "Gut study" "PRJNA2"))
    = Some (accession, abstract) /\
    convert_ids_to_accessions nat (Scripted.efetch Scripted.flaky) Scripted.show
      ["801993"] "user@example.org" Scripted.start
    = (Returned ({[accession := abstract]}, ∅),
       {| env := after_fetches (Scripted.efetch Scripted.flaky) 2 "801993"
                   (env Scripted.start);
          trace := trace Scripted.start ++ replicate 2 (Efetch "801993") |}).
Proof.
  assert (forall j, j < 1 ->
            (Scripted.efetch Scripted.flaky "801993"
               (after_fetches (Scripted.efetch Scripted.flaky) j "801993"
                  (env Scripted.start))).1 = FetchError) as Hfail.
  { intros j Hj. assert (j = 0) as -> by lia. reflexivity. }
  split; [lia|]. split; [exact Hfail|]. split; [reflexivity|]. split; [reflexivity|].
  exact (convert_retry_recovers (Scripted.efetch Scripted.flaky) Scripted.show
           1 "801993" "user@example.org" (Scripted.record "Gut study" "PRJNA2")
           Scripted.start ltac:(lia) Hfail eq_refl eq_refl).
Defined.

Lemma convert_loop_invalid_continues_witness :
  fetch_attempts nat (Scripted.efetch Scenario.no_record) 3 "1" Scripted.start
  = (Returned (Some ["Error: no such record" +:+ newline]),
     {| env := 1; trace := [Efetch "1"] |}) /\
  check_proper_entrez_response (clean_result ["Error: no such record" +:+ newline]) = false /\
  convert_loop nat (Scripted.efetch Scenario.no_record) Scripted.show ["1"; "2"]
    (∅, ∅) Scripted.start
  = convert_loop nat (Scripted.efetch Scenario.no_record) Scripted.show ["2"]
      (∅, <["1" := Scripted.show (clean_result ["Error: no such record" +:+ newline])]> ∅)
      {| env := 1; trace := [Efetch "1"] |}.
Proof.
  split; [reflexivity|]. split; [reflexivity|].
  exact (convert_loop_invalid_continues (Scripted.efetch Scenario.no_record) Scripted.show
           "1" ["2"] ∅ ∅ Scripted.start {| env := 1; trace := [Efetch "1"] |}
           ["Error: no such record" +:+ newline] eq_refl eq_refl).
Defined.

(** X8.  Once the fetch of an identifier is exhausted the run is over:
    wherever that identifier stands in the list, the identifiers after it
    are ignored, and the run equals the run on the list cut after it. *)
Theorem convert_ignores_after_failed_fetch {W : Type}
        (entrez_efetch : string -> W -> fetch_result * W)
        (py_str : list string -> string)
        (before after : list string) (bioproject_id : string)
        (dicts : gmap string string * gmap string string) (s : sys W) :
  (forall w, (entrez_efetch bioproject_id w).1 = FetchError) ->
  convert_loop W entrez_efetch py_str (before ++ bioproject_id :: after) dicts s
  = convert_loop W entrez_efetch py_str (before ++ [bioproject_id]) dicts s.
Proof.
  intros Hdown. revert dicts s.
  induction before as [|b before IH]; intros dicts s.
  - now apply convert_loop_break_on_failed_fetch.
  - cbn [app convert_loop]. unfold bind.
    destruct (convert_body W entrez_efetch py_str b dicts s) as [[[[|] dicts']| |] s1];
      [apply IH | reflexivity | reflexivity | reflexivity].
Qed.

Lemma convert_ignores_after_failed_fetch_witness :
  (forall w, (Scripted.efetch Scripted.down_for_1 "1" w).1 = FetchError) /\
  convert_loop nat (Scripted.efetch Scripted.down_for_1) Scripted.show
    (["2"] ++ "1" :: ["3"; "4"]) (∅, ∅) Scripted.start
  = convert_loop nat (Scripted.efetch Scripted.down_for_1) Scripted.show
      (["2"] ++ ["1"]) (∅, ∅) Scripted.start.
Proof.
  split; [intros w; reflexivity|].
  apply (convert_ignores_after_failed_fetch (Scripted.efetch Scripted.down_for_1)
           Scripted.show ["2"] ["3"; "4"] "1" (∅, ∅) Scripted.start).
  intros w. reflexivity.
Defined.

(** *** Validation and extraction, continued *)

(** X14.  No line carries both markers, so a validated response has at
    least two lines, and its abstract line differs from its accession
    line. *)
Theorem valid_response_two_lines (cleaned_result : list string) :
  check_proper_entrez_response cleaned_result = true ->
  2 <= length cleaned_result /\
  exists abstract line,
    abstract_lines cleaned_result !! 0%nat = Some abstract /\
    accession_lines cleaned_result !! 0%nat = Some line /\
    abstract <> line.
Proof.
  intros Hc. destruct (parse_entry_valid _ Hc) as (abstract & rest & Ha & Hl & _).
  assert (abstract <> "BioProject Accession: " +:+ rest) as Hne.
  { apply filter_first in Ha as (_ & _ & _ & [r ->]%startswith_spec & _).
    discriminate. }
  split; [|now exists abstract, ("BioProject Accession: " +:+ rest)].
  apply filter_first in Ha as (b1 & a1 & E1 & _).
  apply filter_first in Hl as (b2 & a2 & E2 & _).
  destruct cleaned_result as [|x [|y l]]; cbn [length]; [| |lia].
  - now destruct b1.
  - destruct b1 as [|? [|? ?]]; destruct b2 as [|? [|? ?]]; try discriminate.
    injection E1 as -> _. injection E2 as E _. congruence.
Qed.

Lemma valid_response_two_lines_witness :
  check_proper_entrez_response ["BioProject Accession: PRJNA2"; "1. Gut study"] = true /\
  2 <= length ["BioProject Accession: PRJNA2"; "1. Gut study"] /\
  exists abstract line,
    abstract_lines ["BioProject Accession: PRJNA2"; "1. Gut study"] !! 0%nat
    = Some abstract /\
    accession_lines ["BioProject Accession: PRJNA2"; "1. Gut study"] !! 0%nat
    = Some line /\
    abstract <> line.
Proof.
  split; [reflexivity|].
  exact (valid_response_two_lines ["BioProject Accession: PRJNA2"; "1. Gut study"] eq_refl).
Defined.

(** X15.  Only the first marker lines count: lines added after a
    validated response change neither the validation nor the extracted
    entry. *)
Theorem parse_entry_ignores_later_lines (cleaned_result later : list string) :
  check_proper_entrez_response cleaned_result = true ->
  check_proper_entrez_response (cleaned_result ++ later) = true /\
  parse_entry (cleaned_result ++ later) = parse_entry cleaned_result.
Proof.
  intros Hc. split.
  - apply check_true in Hc as [H1 H2]. apply check_true.
    rewrite !existsb_app, H1, H2. split; reflexivity.
  - destruct (parse_entry_valid _ Hc) as (abstract & rest & Ha & Hl & Hp).
    rewrite Hp. unfold parse_entry, abstract_lines, accession_lines in *.
    rewrite !List.filter_app.
    rewrite (lookup_app_l_Some _ _ _ _ Ha), (lookup_app_l_Some _ _ _ _ Hl).
    cbn [mbind option_bind]. now rewrite accession_field_line.
Qed.

Lemma parse_entry_ignores_later_lines_witness :
  check_proper_entrez_response ["1. Gut study"; "BioProject Accession: PRJNA2"] = true /\
  check_proper_entrez_response
    (["1. Gut study"; "BioProject Accession: PRJNA2"]
       ++ ["1. Other"; "BioProject Accession: PRJNA3"]) = true /\
  parse_entry (["1. Gut study"; "BioProject Accession: PRJNA2"]
                 ++ ["1. Other"; "BioProject Accession: PRJNA3"])
  = parse_entry ["1. Gut study"; "BioProject Accession: PRJNA2"].
Proof.
  split; [reflexivity|].
  exact (parse_entry_ignores_later_lines
           ["1. Gut study"; "BioProject Accession: PRJNA2"]
           ["1. Other"; "BioProject Accession: PRJNA3"] eq_refl).
Defined.

(** *** A healthy endpoint *)

Section HealthyEndpoint.

Context {W : Type}.
Variable entrez_efetch : string -> W -> fetch_result * W.
Variable py_str : list string -> string.
Hypothesis never_raises :
  forall bioproject_id w, (entrez_efetch bioproject_id w).1 <> FetchError.

Lemma convert_body_healthy (bioproject_id : string)
      (dicts : gmap string string * gmap string string) (s : sys W) :
  exists dicts' s',
    convert_body W entrez_efetch py_str bioproject_id dicts s
    = (Returned (Next, dicts'), s') /\
    trace s' = trace s ++ [Efetch bioproject_id].
Proof.
  destruct dicts as [accessions failed].
  assert (exists entrez_result s',
             fetch_attempts W entrez_efetch 3 bioproject_id s
             = (Returned (Some entrez_result), s') /\
             trace s' = trace s ++ [Efetch bioproject_id]) as (raw & s' & Hf & Ht).
  { cbn [fetch_attempts]. unfold bind at 1, call_efetch.
    pose proof (never_raises bioproject_id (env s)) as Hne.
    destruct (entrez_efetch bioproject_id (env s)) as [[lines|] w']; [|now cbn in Hne].
    now eexists _, _. }
  destruct (check_proper_entrez_response (clean_result raw)) eqn:Hc.
  - destruct (parse_entry_valid _ Hc) as (abstract & rest & _ & _ & Hp).
    eexists _, s'. split; [|exact Ht]. eapply convert_body_valid; eassumption.
  - eexists _, s'. split; [|exact Ht]. eapply convert_body_invalid; eassumption.
Qed.

(** X16.  When the endpoint never raises, no identifier is skipped: the
    run fetches every identifier exactly once, in input order. *)
Theorem convert_fetches_each_once (bioproject_ids : list string) (email : string)
        (s : sys W) :
  exists accessions failed s',
    convert_ids_to_accessions W entrez_efetch py_str bioproject_ids email s
    = (Returned (accessions, failed), s') /\
    trace s' = trace s ++ map Efetch bioproject_ids.
Proof.
  unfold convert_ids_to_accessions. generalize (∅ : gmap string string, ∅ : gmap string string).
  revert s. induction bioproject_ids as [|bioproject_id ids IH]; intros s dicts.
  - destruct dicts as [accessions failed]. exists accessions, failed, s.
    split; [reflexivity | cbn; now rewrite app_nil_r].
  - cbn [convert_loop]. unfold bind at 1.
    destruct (convert_body_healthy bioproject_id dicts s) as (dicts' & s1 & -> & Ht).
    destruct (IH s1 dicts') as (accessions & failed & s' & Hrun & Ht').
    exists accessions, failed, s'. split; [exact Hrun|].
    rewrite Ht', Ht. cbn [map]. now rewrite <- app_assoc.
Qed.

End HealthyEndpoint.

Lemma convert_fetches_each_once_witness :
  (forall bioproject_id w,
      (Scripted.efetch Scenario.no_record bioproject_id w).1 <> FetchError) /\
  exists accessions failed s',
    convert_ids_to_accessions nat (Scripted.efetch Scenario.no_record) Scripted.show
      ["1"; "2"; "1"] "user@example.org" Scripted.start
    = (Returned (accessions, failed), s') /\
    trace s' = trace Scripted.start ++ map Efetch ["1"; "2"; "1"].
Proof.
  assert (forall bioproject_id w,
             (Scripted.efetch Scenario.no_record bioproject_id w).1 <> FetchError) as H.
  { intros bioproject_id w. unfold Scripted.efetch, Scenario.no_record. cbn [fst].
    destruct (String.eqb bioproject_id "1"); discriminate. }
  split; [exact H|].
  exact (convert_fetches_each_once (Scripted.efetch Scenario.no_record) Scripted.show H
           ["1"; "2"; "1"] "user@example.org" Scripted.start).
Defined.
